(** * The model transform of the AivisSpeech style adder

    A shallow embedding of class [AivisSpeechStyleAdder] of
    [aivis_style_gui.py]: loading a model (plain JSON or a ZIP package with a
    [config.json]), merging the fixed catalog of six speaking styles into its
    configuration, and saving it again.

    - JSON values are the trees Python's [json.load] builds: [dict] is an
      association list in insertion order, [float] is a binary64 number,
      [int] is unbounded.
    - Python strings are kept as bytes: UTF-8 for the code points UTF-8 has,
      and for a lone surrogate (which a JSON escape such as [\ud800] puts
      into a string) the three bytes [ED A0..BF 80..BF] of its code point,
      which occur in no UTF-8 text.  The code only compares strings with
      ASCII needles (["styles"], [".json"], ...), and an ASCII byte never
      occurs inside a multi-byte sequence, so [endswith] and [in] agree with
      the code-point versions.
    - Exceptions are values of [exn]; an operation that can raise returns a
      [result].  Operations on files thread a [filesystem] and return it
      with what they had written when they raised, so that what a failed
      call leaves on disk can be stated.
    - The transform mutates the document it is given.  Here each step
      returns the updated value; the trees [json.load] builds share nothing,
      so this is the same document.  When a step raises, the caller
      ([process_files]) drops the half-updated document, and so does the
      model.
    - The library calls ([pathlib], [zipfile], [json], [shutil], [open])
      follow CPython 3.11 on POSIX.  The operating system is taken to grant
      what the directory structure allows: there are no permissions, quotas
      or symbolic links, and the interpreter's own limits (recursion depth,
      digits of an integer) are not reached by [json.dump] on what
      [json.load] returned. *)

From Stdlib Require Import Floats.PrimFloat.
From Stdlib Require Import Ascii.
From stdpp Require Import gmap strings list.

Set Warnings "-inexact-float,-register-all".

(** ** JSON values *)

Inductive json : Type :=
| JNull
| JBool (b : bool)
| JInt (n : Z)
| JFloat (x : float)
| JStr (s : string)
| JArr (items : list json)
| JObj (fields : list (string * json)).

(** ** Python dictionaries

    A [dict] keeps its keys in insertion order; assigning to a key that is
    present keeps its position, assigning to a new key appends it. *)

Section dict.
Context {V : Type}.
Implicit Types (k : string) (v : V) (d : list (string * V)).

Fixpoint dict_get k d : option V :=
  match d with
  | [] => None
  | (k', v') :: d' => if decide (k' = k) then Some v' else dict_get k d'
  end.

Definition dict_contains k d : bool :=
  match dict_get k d with Some _ => true | None => false end.

Fixpoint dict_set k v d : list (string * V) :=
  match d with
  | [] => [(k, v)]
  | (k', v') :: d' =>
      if decide (k' = k) then (k, v) :: d' else (k', v') :: dict_set k v d'
  end.

Definition dict_keys d : list string := d.*1.
End dict.

(** ** Strings a UTF-8 file cannot hold

    [json.load] accepts an escape for half a surrogate pair and returns a
    string with that code point in it; writing such a string to a file
    opened with [encoding='utf-8'] raises [UnicodeEncodeError]. *)

(** The bytes of a surrogate: [ED] followed by [A0] or more. *)
Fixpoint has_surrogate (s : string) : bool :=
  match s with
  | EmptyString => false
  | String a s' =>
      match s' with
      | String b _ =>
          bool_decide (a = "237"%char) && (160 <=? N_of_ascii b)%N
      | EmptyString => false
      end || has_surrogate s'
  end.

(** No string of the document, key or value, holds a surrogate. *)
Fixpoint encodable (j : json) : bool :=
  match j with
  | JStr s => negb (has_surrogate s)
  | JArr items => forallb encodable items
  | JObj fields =>
      forallb (λ kv, negb (has_surrogate kv.1) && encodable kv.2) fields
  | _ => true
  end.

(** ** Exceptions and results *)

Inductive exn : Type :=
| ValueError (msg : string)
| UnicodeEncodeError
| FileNotFoundError (msg : string)
| FileExistsError
| IsADirectoryError
| NotADirectoryError
| BadZipFile
| JSONDecodeError
| KeyError (key : string)
| IndexError
| TypeError
| AttributeError.

Inductive result (A : Type) : Type :=
| Ok (a : A)
| Raise (e : exn).
Arguments Ok {A} a.
Arguments Raise {A} e.

#[global] Instance result_ret : MRet result := λ A a, Ok a.
#[global] Instance result_bind : MBind result := λ A B f r,
  match r with
  | Ok a => f a
  | Raise e => Raise e
  end.

(** A [for] loop whose body may raise: updates an accumulator, stops at the
    first exception. *)
Fixpoint for_each {A S : Type} (body : S → A → result S) (l : list A) (s : S)
  : result S :=
  match l with
  | [] => Ok s
  | x :: l' => s' ← body s x; for_each body l' s'
  end.

(** A loop that rebuilds each element of a list, in order. *)
Fixpoint traverse {A B : Type} (f : A → result B) (l : list A)
  : result (list B) :=
  match l with
  | [] => Ok []
  | x :: l' => y ← f x; ys ← traverse f l'; Ok (y :: ys)
  end.

(** ** The Python operators the transform applies to JSON values *)

(** [needle in s] on strings. *)
Fixpoint str_contains (needle s : string) : bool :=
  String.prefix needle s ||
  match s with
  | EmptyString => false
  | String _ s' => str_contains needle s'
  end.

(** [s.endswith(suffix)]. *)
Fixpoint endswith (s suffix : string) : bool :=
  bool_decide (s = suffix) ||
  match s with
  | EmptyString => false
  | String _ s' => endswith s' suffix
  end.

(** [x == needle] for a string [needle]: only an equal string is equal. *)
Definition json_is_str (needle : string) (x : json) : bool :=
  match x with
  | JStr s => bool_decide (s = needle)
  | _ => false
  end.

(** [needle in container]: key membership on a dict, element equality on a
    list, substring on a string, [TypeError] on anything else. *)
Definition py_in (needle : string) (container : json) : result bool :=
  match container with
  | JObj d => Ok (dict_contains needle d)
  | JArr l => Ok (existsb (json_is_str needle) l)
  | JStr s => Ok (str_contains needle s)
  | _ => Raise TypeError
  end.

(** [container[key]] for a string key. *)
Definition py_getitem (key : string) (container : json) : result json :=
  match container with
  | JObj d =>
      match dict_get key d with
      | Some v => Ok v
      | None => Raise (KeyError key)
      end
  | _ => Raise TypeError
  end.

(** [container[key] = v] for a string key; the updated container is
    returned in place of the mutated object. *)
Definition py_setitem (key : string) (v : json) (container : json)
  : result json :=
  match container with
  | JObj d => Ok (JObj (dict_set key v d))
  | _ => Raise TypeError
  end.

Fixpoint str_chars (s : string) : list json :=
  match s with
  | EmptyString => []
  | String c s' => JStr (String c EmptyString) :: str_chars s'
  end.

(** What [for x in container] iterates over. *)
Definition py_iter (container : json) : result (list json) :=
  match container with
  | JArr l => Ok l
  | JObj d => Ok (JStr <$> dict_keys d)
  | JStr s => Ok (str_chars s)
  | _ => Raise TypeError
  end.

(** [d.get(key)] on the top-level document: only a dict has [get]. *)
Definition py_get (key : string) (container : json) : result (option json) :=
  match container with
  | JObj d => Ok (dict_get key d)
  | _ => Raise AttributeError
  end.

(** ** The style catalog *)

(** [self.styles], set in [__init__]. *)
Definition styles : list (string * string) :=
  [ ("normal", "ノーマル");
    ("standard", "通常");
    ("high_tension", "テンション高め");
    ("calm", "落ち着き");
    ("cheerful", "上機嫌");
    ("emotional", "怒り・悲しみ") ].

Definition parameters (speed pitch intonation volume emotion_strength : float)
  : json :=
  JObj [ ("speed", JFloat speed);
         ("pitch", JFloat pitch);
         ("intonation", JFloat intonation);
         ("volume", JFloat volume);
         ("emotion_strength", JFloat emotion_strength) ].

(** The local table [style_params] of [_get_style_parameters]. *)
Definition style_params : list (string * json) :=
  [ ("normal", parameters 1.0 0.0 1.0 1.0 0.5);
    ("standard", parameters 1.0 0.0 1.0 1.0 0.5);
    ("high_tension", parameters 1.2 0.2 1.5 1.2 0.8);
    ("calm", parameters 0.9 (-0.1) 0.8 0.9 0.3);
    ("cheerful", parameters 1.1 0.1 1.3 1.1 0.7);
    ("emotional", parameters 0.95 (-0.2) 1.4 1.0 0.9) ].

(** [style_params.get(style_id, style_params["normal"])]: the default is
    evaluated first, as an argument of [get]. *)
Definition _get_style_parameters (style_id : string) : result json :=
  fallback ← py_getitem "normal" (JObj style_params);
  Ok (default fallback (dict_get style_id style_params)).

(** ** [add_styles_to_model] *)

(** The entry written under [config["styles"][style_id]]. *)
Definition style_entry (style_name : string) (params : json) : json :=
  JObj [("name", JStr style_name); ("parameters", params)].

(** Body of the loop over [self.styles.items()].  Python evaluates the
    right-hand side first, then [config["styles"]], then stores into it; the
    last step writes the mutated mapping back into [config]. *)
Definition add_style (config : json) (item : string * string) : result json :=
  let '(style_id, style_name) := item in
  params ← _get_style_parameters style_id;
  table ← py_getitem "styles" config;
  table' ← py_setitem style_id (style_entry style_name params) table;
  py_setitem "styles" table' config.

(** Body of the loop over [config["speakers"]]. *)
Definition add_speaker_styles (speaker : json) : result json :=
  has ← py_in "styles" speaker;
  if negb has
  then py_setitem "styles" (JArr (JStr <$> dict_keys styles)) speaker
  else Ok speaker.

(** Lines 61-68: the [styles] mapping is created when absent, then every
    catalog entry is stored into it. *)
Definition add_catalog (config : json) : result json :=
  has_styles ← py_in "styles" config;
  config ← (if negb has_styles
            then py_setitem "styles" (JObj []) config
            else Ok config);
  for_each add_style styles config.

(** Lines 70-73.  The speakers are mutated in place while the sequence is
    iterated.  Iterating a dict or a string yields strings, which cannot be
    mutated, so only a list is written back. *)
Definition add_to_speakers (config : json) : result json :=
  has_speakers ← py_in "speakers" config;
  if (has_speakers : bool) then
    speakers ← py_getitem "speakers" config;
    entries ← py_iter speakers;
    entries' ← traverse add_speaker_styles entries;
    match speakers with
    | JArr _ => py_setitem "speakers" (JArr entries') config
    | _ => Ok config
    end
  else Ok config.

(** Lines 61-73: what the method does to [config]. *)
Definition merge_config (config : json) : result json :=
  config ← add_catalog config;
  add_to_speakers config.

(** [model_data.get("type") == "aivis"]. *)
Definition is_aivis (model_data : json) : result bool :=
  tag ← py_get "type" model_data;
  Ok (match tag with
      | Some v => json_is_str "aivis" v
      | None => false
      end).

(** Lines 56-59: the configuration the method works on. *)
Definition config_of (model_data : json) : result json :=
  packaged ← is_aivis model_data;
  if (packaged : bool) then py_getitem "config" model_data else Ok model_data.

(** The method returns [model_data] itself, mutated: for a packaged
    document the merged configuration sits under its ["config"] key, for a
    plain one the document is the configuration. *)
Definition add_styles_to_model (model_data : json) : result json :=
  packaged ← is_aivis model_data;
  config ← config_of model_data;
  config' ← merge_config config;
  if (packaged : bool) then py_setitem "config" config' model_data
  else Ok config'.

(** ** Files

    A file holds a JSON text, the beginning of one, some other bytes, or a
    ZIP archive.  A JSON text is a text [json.load] accepts, represented by
    the value [json.load] reads from it, which is the value [json.dump]
    wrote: the two functions belong to Python's library, and the transform
    never looks at the characters in between.  [Truncated j] is what
    [json.dump] had written of [j] when it met a string it could not
    encode: the text of [j] up to some point before that string, which is
    not a JSON text.  The members of an archive are the entries
    [ZipFile.namelist()] lists, in that order, each with the bytes it
    decompresses to; an entry whose name ends in [/] is a directory. *)

Inductive content : Type :=
| JsonText (j : json)
| Truncated (j : json)
| Blob (bytes : string)
| ZipArchive (members : list (string * content)).

(** A file or directory is known by one spelling of its path: components
    separated by [/], none of them empty, [.] or [..]; relative to the
    working directory for what lies below it, starting with [/] for what
    does not.  The working directory itself is [""] as the directory of a
    bare file name and [.] as a [pathlib] path.  A directory exists when it
    was made ([dirs]) or when some file lies below it. *)
Record filesystem : Type := Filesystem {
  files : gmap string content;
  dirs : gset string
}.

(** [Some rest] when [s] is [pre] followed by [rest]. *)
Fixpoint strip_prefix (pre s : string) : option string :=
  match pre, s with
  | EmptyString, _ => Some s
  | String a pre', String b s' =>
      if decide (a = b) then strip_prefix pre' s' else None
  | String _ _, EmptyString => None
  end.

(** [dir + "/" + name]. *)
Definition path_join (dir name : string) : string := dir +:+ "/" +:+ name.

(** [p] lies below [dir]: it is [dir], a [/], and more. *)
Definition under (dir p : string) : Prop :=
  is_Some (strip_prefix (dir +:+ "/") p).

Fixpoint has_slash (p : string) : bool :=
  match p with
  | EmptyString => false
  | String c p' => bool_decide (c = "/"%char) || has_slash p'
  end.

(** The directory a path lies in: what precedes its last [/]. *)
Fixpoint dirname (p : string) : string :=
  match p with
  | EmptyString => EmptyString
  | String c p' => if has_slash p' then String c (dirname p') else EmptyString
  end.

(** The directories on the way to a path, outermost first: its proper
    prefixes that end before a [/]. *)
Fixpoint ancestors (p : string) : list string :=
  match p with
  | EmptyString => []
  | String c p' =>
      (if bool_decide (c = "/"%char) then [EmptyString] else []) ++
      (String c <$> ancestors p')
  end.

(** [p.split("/")]. *)
Fixpoint split_slash (p : string) : list string :=
  match p with
  | EmptyString => [EmptyString]
  | String c p' =>
      if bool_decide (c = "/"%char) then EmptyString :: split_slash p'
      else match split_slash p' with
           | x :: rest => String c x :: rest
           | [] => [String c EmptyString]
           end
  end.

(** ["/".join(parts)]. *)
Fixpoint join_slash (parts : list string) : string :=
  match parts with
  | [] => EmptyString
  | x :: rest =>
      match rest with
      | [] => x
      | _ :: _ => x +:+ "/" +:+ join_slash rest
      end
  end.

(** ** [pathlib] paths

    A [Path] is kept as the string [str] gives for it. *)

(** [Path(s)]: one or three and more leading slashes are the root [/],
    exactly two are the root [//]; empty and [.] components are dropped,
    [..] is kept; a path with nothing left is [.]. *)
Definition Path (s : string) : string :=
  let root :=
    if String.prefix "//" s && negb (String.prefix "///" s) then "//"
    else if String.prefix "/" s then "/"
    else "" in
  let parts := filter (λ x, x ≠ "" ∧ x ≠ ".") (split_slash s) in
  let p := root +:+ join_slash parts in
  if bool_decide (p = "") then "." else p.

(** [dir / name] for a name that is a single component. *)
Definition joinpath (dir name : string) : string :=
  if bool_decide (dir = ".") then name
  else if endswith dir "/" then dir +:+ name
  else path_join dir name.

(** [p.relative_to(dir)] for a [p] below [dir]; below [.] lies every
    relative path. *)
Definition relative_to (dir p : string) : option string :=
  if bool_decide (dir = ".") then
    if String.prefix "/" p || bool_decide (p = "") then None else Some p
  else if endswith dir "/" then strip_prefix dir p
  else strip_prefix (dir +:+ "/") p.

(** ** What is where *)

Definition is_file (p : string) (fs : filesystem) : bool :=
  bool_decide (is_Some (files fs !! p)).

Definition is_dir (d : string) (fs : filesystem) : bool :=
  bool_decide (d = "" ∨ d ∈ dirs fs ∨ map_Exists (λ p _, under d p) (files fs)).

(** A regular file lies on the way to [p]. *)
Definition below_file (p : string) (fs : filesystem) : bool :=
  existsb (λ q, is_file q fs) (ancestors p).

(** ** Operations on the file system *)

Definition io (A : Type) : Type := filesystem → result A * filesystem.

#[global] Instance io_ret : MRet io := λ A a fs, (Ok a, fs).
#[global] Instance io_bind : MBind io := λ A B f m fs,
  match m fs with
  | (Ok a, fs') => f a fs'
  | (Raise e, fs') => (Raise e, fs')
  end.

Definition raise {A : Type} (e : exn) : io A := λ fs, (Raise e, fs).

(** A computation that does not touch the files. *)
Definition lift {A : Type} (r : result A) : io A := λ fs, (r, fs).

(** [try: body except Exception as e: handler e]. *)
Definition try_except {A : Type} (body : io A) (handler : exn → io A) : io A :=
  λ fs,
    match body fs with
    | (Ok a, fs') => (Ok a, fs')
    | (Raise e, fs') => handler e fs'
    end.

(** A [for] loop over operations on files; it stops at the first
    exception. *)
Fixpoint io_for_each {A : Type} (body : A → io unit) (l : list A) : io unit :=
  match l with
  | [] => mret ()
  | x :: l' => body x;; io_for_each body l'
  end.

Definition no_such_file : exn := FileNotFoundError "No such file or directory".

(** The error of a path whose directory cannot be reached. *)
Definition unreachable (p : string) (fs : filesystem) : exn :=
  if below_file p fs then NotADirectoryError else no_such_file.

(** [Path.exists()], [os.path.exists]. *)
Definition path_exists (p : string) : io bool :=
  λ fs, (Ok (is_file p fs || is_dir p fs), fs).

(** [os.path.isdir]. *)
Definition isdir (p : string) : io bool := λ fs, (Ok (is_dir p fs), fs).

(** [os.mkdir]. *)
Definition mkdir (d : string) : io unit := λ fs,
  if is_file d fs || is_dir d fs then (Raise FileExistsError, fs)
  else if is_dir (dirname d) fs
       then (Ok (), Filesystem (files fs) ({[d]} ∪ dirs fs))
       else (Raise (unreachable d fs), fs).

(** [Path.mkdir(exist_ok=True)]: an existing directory is accepted, an
    existing file is not. *)
Definition mkdir_exist_ok (d : string) : io unit := λ fs,
  if is_dir d fs then (Ok (), fs)
  else if is_file d fs then (Raise FileExistsError, fs)
  else if is_dir (dirname d) fs
       then (Ok (), Filesystem (files fs) ({[d]} ∪ dirs fs))
       else (Raise (unreachable d fs), fs).

(** [os.makedirs(d)]: [d] and the missing directories on the way to it are
    made.  A regular file on the way makes the first [mkdir] raise, before
    anything is made. *)
Definition makedirs (d : string) : io unit := λ fs,
  if below_file d fs then (Raise NotADirectoryError, fs)
  else if is_file d fs || is_dir d fs then (Raise FileExistsError, fs)
  else (Ok (),
        Filesystem (files fs)
          (list_to_set
             (filter (λ q, is_dir q fs = false) (ancestors d ++ [d]))
           ∪ dirs fs)).

(** [open(p, 'r')] and reading the whole file. *)
Definition open_read (p : string) : io content := λ fs,
  match files fs !! p with
  | Some c => (Ok c, fs)
  | None =>
      (Raise (if is_dir p fs
              then (if bool_decide (p = "") then no_such_file
                    else IsADirectoryError)
              else unreachable p fs), fs)
  end.

(** [open(p, 'w')]: creates the file, or empties it. *)
Definition open_write (p : string) : io unit := λ fs,
  if is_dir p fs
  then (Raise (if bool_decide (p = "") then no_such_file
               else IsADirectoryError), fs)
  else if is_dir (dirname p) fs
       then (Ok (), Filesystem (<[p := Blob ""]> (files fs)) (dirs fs))
       else (Raise (unreachable p fs), fs).

(** Writing bytes through a handle that is open: the file gets its
    content. *)
Definition write_file (p : string) (c : content) : io unit := λ fs,
  (Ok (), Filesystem (<[p := c]> (files fs)) (dirs fs)).

(** [json.load] of what was read; any text that does not parse, binary
    data included, is reported as [JSONDecodeError] (which stands for
    [UnicodeDecodeError] as well, both being [ValueError]s). *)
Definition json_load (c : content) : result json :=
  match c with
  | JsonText j => Ok j
  | _ => Raise JSONDecodeError
  end.

(** [json.dump(obj, f, ensure_ascii=False, indent=2)] into the file opened
    at [p] with [encoding='utf-8'].  The text is written piece by piece;
    the piece with a surrogate in it raises, and closing the file keeps
    what came before. *)
Definition json_dump (obj : json) (p : string) : io unit := λ fs,
  if encodable obj
  then (Ok (), Filesystem (<[p := JsonText obj]> (files fs)) (dirs fs))
  else (Raise UnicodeEncodeError,
        Filesystem (<[p := Truncated obj]> (files fs)) (dirs fs)).

(** ** Archives *)

(** [zipfile.ZipFile(p, 'r')]: the members of the archive at [p]. *)
Definition zip_open (p : string) : io (list (string * content)) :=
  c ← open_read p;
  lift (match c with
        | ZipArchive members => Ok members
        | _ => Raise BadZipFile
        end).

(** [getinfo(name)] and reading the member: of several members with one
    name the archive's directory keeps the last. *)
Definition getinfo (name : string) (members : list (string * content))
  : content :=
  default (Blob "") (dict_get name (reverse members)).

(** The name a member is extracted under: its components other than the
    empty one, [.] and [..]. *)
Definition sanitise (name : string) : string :=
  join_slash (filter (λ x, x ≠ "" ∧ x ≠ "." ∧ x ≠ "..") (split_slash name)).

(** [_extract_member(name, targetpath, pwd)] for a [targetpath] in normal
    form, as the staging path is: [os.path.normpath] of the joined path
    then changes nothing but the [/] a member without components leaves at
    the end.  [is_dir()] looks at the last character of the name and raises
    [IndexError] when there is none. *)
Definition extract_member (targetpath name : string) (data : content)
  : io unit :=
  let arcname := sanitise name in
  let targetpath :=
    if bool_decide (arcname = "") then targetpath
    else path_join targetpath arcname in
  let upperdirs := dirname targetpath in
  found ← path_exists upperdirs;
  (if bool_decide (upperdirs ≠ "") && negb (found : bool)
   then makedirs upperdirs else mret ());;
  if bool_decide (name = "") then raise IndexError
  else if endswith name "/" then
    there ← isdir targetpath;
    if (there : bool) then mret () else mkdir targetpath
  else
    open_write targetpath;;
    write_file targetpath data.

(** [extractall(dir)]: every name of [namelist()] in turn. *)
Definition extractall (dir : string) (members : list (string * content))
  : io unit :=
  io_for_each (λ name, extract_member dir name (getinfo name members))
              (dict_keys members).

(** The files [dir.rglob('*')] finds, with their names relative to [dir]. *)
Definition rglob_files (dir : string) : io (list (string * content)) := λ fs,
  (Ok (omap (λ f, name ← relative_to dir f.1; Some (name, f.2))
            (map_to_list (files fs))),
   fs).

(** [shutil.rmtree(dir, ignore_errors=True)]: all below the directory is
    gone, and the directory itself unless it is the working directory,
    which cannot be removed; when [dir] is a file or missing nothing
    matches.  Every error is dropped. *)
Definition rmtree (dir : string) : io unit := λ fs,
  (Ok (),
   Filesystem
     (filter (λ f, relative_to dir f.1 = None) (files fs))
     (filter (λ d, d ≠ dir ∧ relative_to dir d = None) (dirs fs))).

(** ** [load_model] and [save_model] *)

Definition temp_aivis_extract : string := "temp_aivis_extract".

Definition unsupported_format : exn :=
  ValueError "サポートされていないファイル形式です".

Definition missing_config : exn :=
  FileNotFoundError "config.jsonが見つかりません".

Definition _load_aivis_model (model_path : string) : io json :=
  let temp_dir := Path temp_aivis_extract in
  mkdir_exist_ok temp_dir;;
  try_except
    (members ← zip_open model_path;
     extractall temp_dir members;;
     let config_path := joinpath temp_dir "config.json" in
     found ← path_exists config_path;
     if (found : bool) then
       text ← open_read config_path;
       config ← lift (json_load text);
       mret (JObj [ ("type", JStr "aivis");
                    ("config", config);
                    ("temp_dir", JStr temp_dir) ])
     else raise missing_config)
    (λ e, rmtree temp_dir;; raise e).

Definition load_model (model_path : string) : io json :=
  if endswith model_path ".aivis" then _load_aivis_model model_path
  else if endswith model_path ".json" then
    text ← open_read model_path;
    lift (json_load text)
  else raise unsupported_format.

(** [Path(model_data["temp_dir"])]: only a string makes a path. *)
Definition as_path (v : json) : result string :=
  match v with
  | JStr s => Ok (Path s)
  | _ => Raise TypeError
  end.

(** The archive is opened before the directory is listed, so an output
    path below [temp_dir] is listed too, and read back while it is being
    written; what is read then depends on buffering and is taken to be
    nothing. *)
Definition _save_aivis_model (model_data : json) (output_path : string)
  : io unit :=
  temp_dir ← lift (v ← py_getitem "temp_dir" model_data; as_path v);
  let config_path := joinpath temp_dir "config.json" in
  open_write config_path;;
  config ← lift (py_getitem "config" model_data);
  json_dump config config_path;;
  open_write output_path;;
  members ← rglob_files temp_dir;
  write_file output_path (ZipArchive members);;
  rmtree temp_dir.

Definition save_model (model_data : json) (output_path : string) : io unit :=
  packaged ← lift (is_aivis model_data);
  if (packaged : bool) then _save_aivis_model model_data output_path
  else
    open_write output_path;;
    json_dump model_data output_path.

(** One file of the batch: the three calls of [process_files]. *)
Definition process_file (input_file output_file : string) : io unit :=
  model_data ← load_model input_file;
  model_data ← lift (add_styles_to_model model_data);
  save_model model_data output_file.

(** ** Vocabulary of the properties *)

(** The six identifiers, in the iteration order of [self.styles]. *)
Definition style_ids : list string := dict_keys styles.

(** The [styles] mapping of a configuration; empty when it has none. *)
Definition styles_of (config : json) : list (string * json) :=
  match config with
  | JObj d =>
      match dict_get "styles" d with
      | Some (JObj table) => table
      | _ => []
      end
  | _ => []
  end.

(** The catalog table of the specification: identifier, display name and
    the five parameters of each style. *)
Definition catalog_table : list (string * (string * json)) :=
  [ ("normal", ("Normal", parameters 1.0 0.0 1.0 1.0 0.5));
    ("standard", ("Standard", parameters 1.0 0.0 1.0 1.0 0.5));
    ("high_tension", ("High Tension", parameters 1.2 0.2 1.5 1.2 0.8));
    ("calm", ("Calm", parameters 0.9 (-0.1) 0.8 0.9 0.3));
    ("cheerful", ("Cheerful", parameters 1.1 0.1 1.3 1.1 0.7));
    ("emotional", ("Emotional", parameters 0.95 (-0.2) 1.4 1.0 0.9)) ].

(** What [_get_style_parameters] answers, as a value. *)
Definition params_of (style_id : string) : json :=
  default (parameters 1.0 0.0 1.0 1.0 0.5) (dict_get style_id style_params).

(** The mapping after the loop over the catalog ran on [table]. *)
Definition add_entries (items : list (string * string))
    (table : list (string * json)) : list (string * json) :=
  foldl (λ t item, dict_set item.1 (style_entry item.2 (params_of item.1)) t)
        table items.

(** The configuration after line 62. *)
Definition with_styles (d : list (string * json)) : list (string * json) :=
  if dict_contains "styles" d then d else dict_set "styles" (JObj []) d.

Definition is_object (x : json) : bool :=
  match x with
  | JObj _ => true
  | _ => false
  end.

(** A configuration of the expected shape: an object whose [styles], when
    present, is a mapping and whose [speakers], when present, is a sequence
    of objects. *)
Definition well_formed_config (config : json) : bool :=
  match config with
  | JObj d =>
      match dict_get "styles" d with
      | None | Some (JObj _) => true
      | Some _ => false
      end &&
      match dict_get "speakers" d with
      | None => true
      | Some (JArr entries) => forallb is_object entries
      | Some _ => false
      end
  | _ => false
  end.

(** What the merge makes of one speaker entry that is an object. *)
Definition speaker_after (fields : list (string * json))
  : list (string * json) :=
  if dict_contains "styles" fields then fields
  else dict_set "styles" (JArr (JStr <$> style_ids)) fields.

(** What the merge makes of one element of [speakers]. *)
Definition entry_after (speaker : json) : json :=
  match speaker with
  | JObj fields => JObj (speaker_after fields)
  | _ => speaker
  end.

(** The string of the escape [\ud800], half a surrogate pair. *)
Definition lone_surrogate : string :=
  String "237" (String "160" (String "128" EmptyString)).

(** No member is extracted to [config.json] at the root of an archive. *)
Definition lacks_root_config (members : list (string * content)) : Prop :=
  Forall (λ m, sanitise m.1 ≠ "config.json") members.

(** Nothing was removed between [fs] and [fs']: the same directories were
    made, and every file is still there (its content may have changed). *)
Definition nothing_removed (fs fs' : filesystem) : Prop :=
  dirs fs' = dirs fs ∧ ∀ p, is_Some (files fs !! p) → is_Some (files fs' !! p).

(** ** The batch of [AivisStyleGUI.process_files]

    The worker reads [self.input_files] and [self.output_dir], derives an
    output name with [os.path] (here in its POSIX flavour, the one that
    matches the [/] paths of [filesystem]), runs the three calls of
    [process_file] inside [try] / [except Exception], and hands its
    messages to the UI thread with [self.root.after].  The widgets are not
    modelled: the calls handed over are recorded in the order they are
    scheduled, and scheduling is taken not to raise. *)

(** [os.path.basename]: what follows the last [/]. *)
Fixpoint basename (p : string) : string :=
  match p with
  | EmptyString => EmptyString
  | String c p' =>
      if has_slash p' then basename p'
      else if bool_decide (c = "/"%char) then p' else p
  end.

(** The rest of the path: everything up to and including the last [/]. *)
Fixpoint dirpart (p : string) : string :=
  match p with
  | EmptyString => EmptyString
  | String c p' =>
      if has_slash p' || bool_decide (c = "/"%char)
      then String c (dirpart p') else EmptyString
  end.

(** A string cut at its last [.]: what precedes the dot, and the rest with
    the dot. *)
Fixpoint split_last_dot (s : string) : option (string * string) :=
  match s with
  | EmptyString => None
  | String c s' =>
      match split_last_dot s' with
      | Some (name, ext) => Some (String c name, ext)
      | None => if bool_decide (c = "."%char) then Some (EmptyString, s) else None
      end
  end.

Fixpoint all_dots (s : string) : bool :=
  match s with
  | EmptyString => true
  | String c s' => bool_decide (c = "."%char) && all_dots s'
  end.

(** [os.path.splitext]: the extension starts at the last [.] of the last
    component, unless only dots precede it there. *)
Definition splitext (p : string) : string * string :=
  match split_last_dot (basename p) with
  | Some (name, ext) =>
      if all_dots name then (p, EmptyString) else (dirpart p +:+ name, ext)
  | None => (p, EmptyString)
  end.

(** [os.path.join] of two components. *)
Definition os_path_join (a b : string) : string :=
  if String.prefix "/" b then b
  else if bool_decide (a = "") || endswith a "/" then a +:+ b
  else a +:+ "/" +:+ b.

(** Lines 307-311: the name of the output file. *)
Definition output_file_of (output_dir input_file : string) : string :=
  let base_name := basename input_file in
  let name_without_ext := (splitext base_name).1 in
  let ext := (splitext base_name).2 in
  os_path_join output_dir (name_without_ext +:+ "_styled" +:+ ext).

(** The calls scheduled on the UI thread: [update_status] with the text
    for file [i+1] of [len(self.input_files)], [messagebox.showerror] for
    a file and its exception, [process_complete] with the two counters. *)
Inductive ui_call : Type :=
| update_status (position total : nat)
| showerror (base_name : string) (e : exn)
| process_complete (success_count error_count : nat).

(** The local variables of the loop, and what was scheduled so far. *)
Record progress : Type := Progress {
  success_count : nat;
  error_count : nat;
  scheduled : list ui_call
}.

(** The [for] loop of [process_files], from index [i] on. *)
Fixpoint process_loop (output_dir : string) (total i : nat)
    (input_files : list string) (st : progress) (fs : filesystem)
  : progress * filesystem :=
  match input_files with
  | [] => (st, fs)
  | input_file :: rest =>
      let status := update_status (i + 1) total in
      let base_name := basename input_file in
      let output_file := output_file_of output_dir input_file in
      match process_file input_file output_file fs with
      | (Ok _, fs') =>
          process_loop output_dir total (S i) rest
            (Progress (success_count st + 1) (error_count st)
                      (scheduled st ++ [status]))
            fs'
      | (Raise e, fs') =>
          process_loop output_dir total (S i) rest
            (Progress (success_count st) (error_count st + 1)
                      (scheduled st ++ [status; showerror base_name e]))
            fs'
      end
  end.

(** [process_files]: the loop, then the completion call. *)
Definition process_files (input_files : list string) (output_dir : string)
    (fs : filesystem) : list ui_call * filesystem :=
  let '(st, fs') :=
    process_loop output_dir (length input_files) 0 input_files
                 (Progress 0 0 []) fs in
  (scheduled st ++ [process_complete (success_count st) (error_count st)],
   fs').

(** ** More vocabulary *)

(** What a name of the archive puts where: a directory entry writes no
    file, any other name writes the bytes of its member at the path it is
    extracted to. *)
Definition extract_step (info : string → content)
    (acc : gmap string content) (name : string) : gmap string content :=
  if endswith name "/" then acc else <[sanitise name := info name]> acc.

(** An archive as the mapping from path to content that extracting it
    produces, paths relative to the directory it is extracted to: of two
    members written to one path the later one counts. *)
Definition archive_map (members : list (string * content))
  : gmap string content :=
  foldl (extract_step (λ name, getinfo name members)) ∅ (dict_keys members).

(** A member name as extraction keeps it, and not a directory entry. *)
Definition plain_name (name : string) : bool :=
  bool_decide (name ≠ "") && bool_decide (sanitise name = name) &&
  negb (endswith name "/").

(** The staging directory [dir] while the names [all] are extracted into
    it from nothing: it is a directory, the files below it come from the
    names, and the directories below it lie on the way to such files. *)
Definition extracted_only (dir : string) (all : list string)
    (fs : filesystem) : Prop :=
  is_dir dir fs = true ∧ is_file dir fs = false ∧
  (∀ p, under dir p → is_Some (files fs !! p) →
        ∃ n, n ∈ all ∧ p = path_join dir n) ∧
  (∀ d, under dir d → d ∈ dirs fs →
        ∃ n, n ∈ all ∧ under d (path_join dir n)).

(** Members that are files with plain names, none of them below another
    (which would ask for a file and a directory at one path). *)
Definition plain_members (members : list (string * content)) : Prop :=
  Forall (λ m, plain_name m.1 = true) members ∧
  ∀ m m', m ∈ members → m' ∈ members → ¬ under m.1 m'.1.

(** The files below [dir], under their names relative to [dir]. *)
Definition staged_files (dir : string) (fs : filesystem)
  : list (string * content) :=
  omap (λ f, name ← relative_to dir f.1; Some (name, f.2))
       (map_to_list (files fs)).

Fixpoint has_dot (s : string) : bool :=
  match s with
  | EmptyString => false
  | String c s' => bool_decide (c = "."%char) || has_dot s'
  end.

(** The position and total of a status update. *)
Definition status_position (c : ui_call) : option (nat * nat) :=
  match c with
  | update_status position total => Some (position, total)
  | _ => None
  end.

Definition is_showerror (c : ui_call) : bool :=
  match c with
  | showerror _ _ => true
  | _ => false
  end.

(** What one speaker entry has to be for the merge to get past it. *)
Definition speaker_passes (speaker : json) : bool :=
  match speaker with
  | JObj _ => true
  | JStr s => str_contains "styles" s
  | JArr items => existsb (json_is_str "styles") items
  | _ => false
  end.

(** The configurations on which the merge does not raise. *)
Definition mergeable (config : json) : bool :=
  match config with
  | JObj d =>
      match dict_get "styles" d with
      | None | Some (JObj _) => true
      | Some _ => false
      end &&
      match dict_get "speakers" d with
      | None => true
      | Some (JArr entries) => forallb speaker_passes entries
      | Some (JObj fields) =>
          forallb (str_contains "styles") (dict_keys fields)
      | Some (JStr s) => bool_decide (s = "")
      | Some _ => false
      end
  | _ => false
  end.

(** * Properties *)

(** ** Dictionaries *)

Section dict_facts.
Context {V : Type}.
Implicit Types (k : string) (v : V) (d : list (string * V)).

Lemma dict_get_set_eq k v d : dict_get k (dict_set k v d) = Some v.
Proof.
  induction d as [|[k' v'] d IH]; simpl.
  - by rewrite decide_True.
  - destruct (decide (k' = k)) as [->|Hne]; simpl.
    + by rewrite decide_True.
    + by rewrite decide_False.
Qed.

Lemma dict_get_set_ne k k' v d :
  k ≠ k' → dict_get k' (dict_set k v d) = dict_get k' d.
Proof.
  intros Hne. induction d as [|[k0 v0] d IH]; simpl.
  - by rewrite decide_False.
  - destruct (decide (k0 = k)) as [->|Hk0]; simpl.
    + by rewrite !decide_False.
    + by rewrite IH.
Qed.

Lemma dict_set_set k v v' d :
  dict_set k v' (dict_set k v d) = dict_set k v' d.
Proof.
  induction d as [|[k0 v0] d IH]; simpl.
  - by rewrite decide_True.
  - destruct (decide (k0 = k)) as [->|Hk0]; simpl.
    + by rewrite decide_True.
    + by rewrite decide_False, IH.
Qed.

Lemma dict_set_id k v d : dict_get k d = Some v → dict_set k v d = d.
Proof.
  induction d as [|[k0 v0] d IH]; simpl; [done|].
  destruct (decide (k0 = k)) as [->|Hk0].
  - by intros [= ->].
  - intros Hd. by rewrite IH.
Qed.

Lemma dict_contains_set_eq k v d : dict_contains k (dict_set k v d) = true.
Proof. unfold dict_contains. by rewrite dict_get_set_eq. Qed.

Lemma dict_contains_true k d :
  dict_contains k d = true ↔ is_Some (dict_get k d).
Proof.
  unfold dict_contains. rewrite is_Some_alt. by destruct (dict_get k d).
Qed.

Lemma dict_contains_false k d :
  dict_contains k d = false ↔ dict_get k d = None.
Proof. unfold dict_contains. by destruct (dict_get k d). Qed.
End dict_facts.

(** ** The result monad *)

Lemma bind_Ok {A B : Type} (r : result A) (f : A → result B) (b : B) :
  r ≫= f = Ok b ↔ ∃ a, r = Ok a ∧ f a = Ok b.
Proof.
  destruct r as [a|e]; simpl.
  - split; [by exists a | by intros (? & [= <-] & ?)].
  - split; [done | by intros (? & ? & ?)].
Qed.

Lemma traverse_fixed {A : Type} (f : A → result A) l l' :
  (∀ x y, f x = Ok y → f y = Ok y) →
  traverse f l = Ok l' → traverse f l' = Ok l'.
Proof.
  intros Hf. revert l'. induction l as [|x l IH]; intros l'; simpl.
  - by intros [= <-].
  - intros (y & Hy & (ys & Hys & [= <-])%bind_Ok)%bind_Ok.
    simpl. rewrite (Hf _ _ Hy). simpl. by rewrite (IH _ Hys).
Qed.

(** ** The catalog loop *)

Section catalog_loop.
Implicit Types (d table : list (string * json)).
Implicit Types (items : list (string * string)).

Lemma get_style_parameters_eq style_id :
  _get_style_parameters style_id = Ok (params_of style_id).
Proof. reflexivity. Qed.

Lemma add_entries_cons id name items table :
  add_entries ((id, name) :: items) table =
  add_entries items (dict_set id (style_entry name (params_of id)) table).
Proof. reflexivity. Qed.

Lemma add_style_obj d table id name :
  dict_get "styles" d = Some (JObj table) →
  add_style (JObj d) (id, name) =
  Ok (JObj (dict_set "styles"
              (JObj (dict_set id (style_entry name (params_of id)) table)) d)).
Proof.
  intros Hd. unfold add_style. rewrite get_style_parameters_eq.
  simpl. by rewrite Hd.
Qed.

Lemma for_each_add_style items d table :
  dict_get "styles" d = Some (JObj table) →
  for_each add_style items (JObj d) =
  Ok (JObj (dict_set "styles" (JObj (add_entries items table)) d)).
Proof.
  revert d table. induction items as [|[id name] items IH]; intros d table Hd.
  - simpl. by rewrite dict_set_id.
  - cbn [for_each]. rewrite (add_style_obj _ table) by done.
    cbn [mbind result_bind].
    erewrite IH by apply dict_get_set_eq.
    by rewrite dict_set_set, add_entries_cons.
Qed.

(** Keys outside the catalog are not touched by the loop. *)
Lemma add_entries_other items table k :
  k ∉ items.*1 → dict_get k (add_entries items table) = dict_get k table.
Proof.
  revert table. induction items as [|[id name] items IH]; intros table Hk.
  - done.
  - rewrite fmap_cons in Hk. apply not_elem_of_cons in Hk as [Hne Hk].
    rewrite add_entries_cons, IH by done. by apply dict_get_set_ne.
Qed.

(** Each catalog key ends up with its entry. *)
Lemma add_entries_lookup items table id name :
  NoDup items.*1 → (id, name) ∈ items →
  dict_get id (add_entries items table) =
  Some (style_entry name (params_of id)).
Proof.
  revert table.
  induction items as [|[id0 name0] items IH]; intros table Hnd Hin.
  - by apply elem_of_nil in Hin.
  - rewrite add_entries_cons. simpl in Hnd. apply NoDup_cons in Hnd as [Hfresh Hnd].
    apply elem_of_cons in Hin as [[= -> ->]|Hin].
    + rewrite add_entries_other by done. apply dict_get_set_eq.
    + by apply IH.
Qed.

(** Running the loop on its own result changes nothing. *)
Lemma add_entries_fixed items table :
  NoDup items.*1 →
  add_entries items (add_entries items table) = add_entries items table.
Proof.
  intros Hnd.
  assert (∀ items' t,
    (∀ id name, (id, name) ∈ items' →
       dict_get id t = Some (style_entry name (params_of id))) →
    add_entries items' t = t) as Hstable.
  { induction items' as [|[id name] items' IH]; intros t Ht; [done|].
    rewrite add_entries_cons, dict_set_id by (apply Ht; left).
    apply IH. intros. apply Ht. by right. }
  apply Hstable. intros id name Hin. by apply add_entries_lookup.
Qed.

Lemma styles_NoDup : NoDup styles.*1.
Proof. apply (bool_decide_unpack _). by vm_compute. Qed.
End catalog_loop.

(** ** The two halves of the merge *)

Section merge_facts.
Implicit Types (d table fields : list (string * json)).
Implicit Types (config speaker : json).

Lemma with_styles_get d :
  dict_get "styles" (with_styles d) =
  Some (default (JObj []) (dict_get "styles" d)).
Proof.
  unfold with_styles, dict_contains.
  destruct (dict_get "styles" d) eqn:Hd; [by rewrite Hd|].
  by rewrite dict_get_set_eq.
Qed.

Lemma with_styles_other d k :
  k ≠ "styles" → dict_get k (with_styles d) = dict_get k d.
Proof.
  intros Hk. unfold with_styles.
  destruct (dict_contains "styles" d); [done|]. by apply dict_get_set_ne.
Qed.

Lemma with_styles_fixed d :
  is_Some (dict_get "styles" d) → with_styles d = d.
Proof.
  intros Hd%dict_contains_true. unfold with_styles. by rewrite Hd.
Qed.

Lemma add_style_not_obj d x item :
  dict_get "styles" d = Some x → is_object x = false →
  add_style (JObj d) item = Raise TypeError.
Proof.
  intros Hd Hx. destruct item as [id name]. unfold add_style.
  rewrite get_style_parameters_eq. simpl. rewrite Hd.
  by destruct x.
Qed.

Lemma add_catalog_not_obj d x :
  dict_get "styles" d = Some x → is_object x = false →
  add_catalog (JObj d) = Raise TypeError.
Proof.
  intros Hd Hx. unfold add_catalog. cbn [py_in mbind result_bind].
  unfold dict_contains. rewrite Hd. cbn [negb mbind result_bind].
  unfold styles. cbn [for_each]. by erewrite add_style_not_obj.
Qed.

Lemma add_catalog_obj d table :
  default (JObj []) (dict_get "styles" d) = JObj table →
  add_catalog (JObj d) =
  Ok (JObj (dict_set "styles" (JObj (add_entries styles table))
              (with_styles d))).
Proof.
  intros Ht.
  transitivity (for_each add_style styles (JObj (with_styles d))).
  - unfold add_catalog, with_styles. simpl.
    by destruct (dict_contains "styles" d).
  - apply for_each_add_style. by rewrite with_styles_get, Ht.
Qed.

Lemma add_catalog_inv config config' :
  add_catalog config = Ok config' →
  ∃ d table,
    config = JObj d ∧
    default (JObj []) (dict_get "styles" d) = JObj table ∧
    config' =
      JObj (dict_set "styles" (JObj (add_entries styles table))
              (with_styles d)).
Proof.
  destruct config as [| | | | s|items|d]; try discriminate.
  - unfold add_catalog. simpl. by destruct (str_contains "styles" s).
  - unfold add_catalog. simpl.
    by destruct (existsb (json_is_str "styles") items).
  - destruct (default (JObj []) (dict_get "styles" d)) as [| | | | | |table]
      eqn:Ht.
    7: { rewrite (add_catalog_obj _ _ Ht). intros [= <-]. eauto. }
    all: destruct (dict_get "styles" d) as [old|] eqn:Hd; simpl in Ht;
      [subst old|done].
    all: by erewrite add_catalog_not_obj.
Qed.

Lemma add_speaker_styles_obj fields :
  add_speaker_styles (JObj fields) = Ok (JObj (speaker_after fields)).
Proof.
  unfold add_speaker_styles, speaker_after. simpl.
  by destruct (dict_contains "styles" fields).
Qed.

Lemma add_speaker_styles_fixed speaker speaker' :
  add_speaker_styles speaker = Ok speaker' →
  add_speaker_styles speaker' = Ok speaker'.
Proof.
  destruct speaker as [| | | | s|items|fields]; try discriminate.
  - unfold add_speaker_styles. simpl.
    destruct (str_contains "styles" s) eqn:Hs; [|done].
    intros [= <-]. simpl. by rewrite Hs.
  - unfold add_speaker_styles. simpl.
    destruct (existsb (json_is_str "styles") items) eqn:Hs; [|done].
    intros [= <-]. simpl. by rewrite Hs.
  - rewrite add_speaker_styles_obj. intros [= <-].
    rewrite add_speaker_styles_obj. do 2 f_equal. unfold speaker_after.
    destruct (dict_contains "styles" fields) eqn:Hs; [by rewrite Hs|].
    by rewrite dict_contains_set_eq.
Qed.

Lemma traverse_objects entries :
  forallb is_object entries = true →
  traverse add_speaker_styles entries = Ok (entry_after <$> entries).
Proof.
  induction entries as [|s entries IH]; [done|].
  simpl. intros [Hs Hrest]%andb_prop.
  destruct s; try discriminate.
  rewrite add_speaker_styles_obj. simpl. by rewrite IH.
Qed.

Lemma add_to_speakers_obj d :
  add_to_speakers (JObj d) =
  match dict_get "speakers" d with
  | None => Ok (JObj d)
  | Some speakers =>
      entries ← py_iter speakers;
      entries' ← traverse add_speaker_styles entries;
      Ok (match speakers with
          | JArr _ => JObj (dict_set "speakers" (JArr entries') d)
          | _ => JObj d
          end)
  end.
Proof.
  unfold add_to_speakers. simpl. unfold dict_contains.
  destruct (dict_get "speakers" d) as [speakers|]; [|done].
  simpl. destruct (py_iter speakers) as [entries|]; [|done].
  simpl. destruct (traverse add_speaker_styles entries); [|done].
  simpl. by destruct speakers.
Qed.

Lemma add_to_speakers_fixed d config' :
  add_to_speakers (JObj d) = Ok config' →
  add_to_speakers config' = Ok config'.
Proof.
  rewrite add_to_speakers_obj.
  destruct (dict_get "speakers" d) as [speakers|] eqn:Hd.
  - intros (entries & Hiter & (entries' & Htr & [= <-])%bind_Ok)%bind_Ok.
    destruct speakers;
      try (rewrite add_to_speakers_obj, Hd, Hiter; simpl;
           by rewrite Htr).
    simpl in Hiter. injection Hiter as ->.
    rewrite add_to_speakers_obj, dict_get_set_eq. simpl.
    rewrite (traverse_fixed _ _ _ add_speaker_styles_fixed Htr). simpl.
    by rewrite dict_set_set.
  - intros [= <-]. by rewrite add_to_speakers_obj, Hd.
Qed.

(** The keys other than [speakers] are out of reach of the second half. *)
Lemma add_to_speakers_other d config' :
  add_to_speakers (JObj d) = Ok config' →
  ∃ d', config' = JObj d' ∧
        ∀ k, k ≠ "speakers" → dict_get k d' = dict_get k d.
Proof.
  rewrite add_to_speakers_obj.
  destruct (dict_get "speakers" d) as [speakers|] eqn:Hd.
  - intros (entries & Hiter & (entries' & Htr & [= <-])%bind_Ok)%bind_Ok.
    destruct speakers; eexists; (split; [done|]); try done.
    intros k Hk. by apply dict_get_set_ne.
  - intros [= <-]. eauto.
Qed.
End merge_facts.

(** ** The merge as a whole *)

Section merge_whole.
Implicit Types (d table fields : list (string * json)).
Implicit Types (config model_data : json).

Lemma dict_get_None {V : Type} k (l : list (string * V)) :
  k ∉ dict_keys l → dict_get k l = None.
Proof.
  unfold dict_keys. induction l as [|[k0 v0] l IH]; [done|].
  rewrite fmap_cons. intros [Hne Hk]%not_elem_of_cons. simpl.
  rewrite decide_False by done. by apply IH.
Qed.

Lemma styles_of_default d :
  well_formed_config (JObj d) = true →
  default (JObj []) (dict_get "styles" d) = JObj (styles_of (JObj d)).
Proof.
  simpl. intros [Hst _]%andb_prop.
  by destruct (dict_get "styles" d) as [[]|].
Qed.

(** What a successful merge did to the configuration. *)
Lemma merge_config_inv config config' :
  merge_config config = Ok config' →
  ∃ d d',
    config = JObj d ∧ config' = JObj d' ∧
    default (JObj []) (dict_get "styles" d) = JObj (styles_of config) ∧
    dict_get "styles" d' =
      Some (JObj (add_entries styles (styles_of config))) ∧
    (∀ k, k ≠ "styles" → k ≠ "speakers" → dict_get k d' = dict_get k d) ∧
    add_to_speakers
      (JObj (dict_set "styles" (JObj (add_entries styles (styles_of config)))
               (with_styles d))) = Ok config'.
Proof.
  unfold merge_config. intros (c1 & Hcat & Hsp)%bind_Ok.
  apply add_catalog_inv in Hcat as (d & table & -> & Ht & ->).
  assert (styles_of (JObj d) = table) as Hof.
  { simpl. by destruct (dict_get "styles" d) as [[]|]; simplify_eq/=. }
  destruct (add_to_speakers_other _ _ Hsp) as (d' & -> & Hother).
  exists d, d'. rewrite Hof. split_and!; try done.
  - rewrite Hother by done. apply dict_get_set_eq.
  - intros k Hst Hspk. rewrite Hother by done.
    rewrite dict_get_set_ne by done. by apply with_styles_other.
Qed.

Lemma merge_config_obj d :
  well_formed_config (JObj d) = true →
  merge_config (JObj d) =
  add_to_speakers
    (JObj (dict_set "styles"
             (JObj (add_entries styles (styles_of (JObj d))))
             (with_styles d))).
Proof.
  intros Hwf. unfold merge_config.
  by rewrite (add_catalog_obj _ _ (styles_of_default _ Hwf)).
Qed.

(** A second merge finds nothing left to do. *)
Lemma merge_config_fixed config config' :
  merge_config config = Ok config' → merge_config config' = Ok config'.
Proof.
  intros Hm.
  destruct (merge_config_inv _ _ Hm) as (d & d' & -> & -> & _ & Hst & _ & Hsp).
  apply add_to_speakers_fixed in Hsp.
  unfold merge_config. erewrite add_catalog_obj by (by rewrite Hst).
  rewrite add_entries_fixed by apply styles_NoDup.
  rewrite with_styles_fixed by (by rewrite Hst).
  by rewrite dict_set_id.
Qed.

Lemma is_aivis_obj d :
  is_aivis (JObj d) =
  Ok (match dict_get "type" d with
      | Some v => json_is_str "aivis" v
      | None => false
      end).
Proof. reflexivity. Qed.

Lemma json_is_str_true needle v :
  json_is_str needle v = true ↔ v = JStr needle.
Proof.
  destruct v; simpl; try (split; [done|discriminate]).
  rewrite bool_decide_eq_true. split; [by intros ->|by intros [= ->]].
Qed.

(** What a successful [add_styles_to_model] did to the document. *)
Lemma add_styles_to_model_inv model_data model_data' :
  add_styles_to_model model_data = Ok model_data' →
  ∃ config config',
    config_of model_data = Ok config ∧
    merge_config config = Ok config' ∧
    config_of model_data' = Ok config' ∧
    is_aivis model_data' = is_aivis model_data.
Proof.
  destruct model_data as [| | | | | |d]; try discriminate.
  unfold add_styles_to_model, config_of. rewrite is_aivis_obj.
  cbn [mbind result_bind].
  destruct (match dict_get "type" d with
            | Some v => json_is_str "aivis" v
            | None => false
            end) eqn:Htag.
  - intros (config & Hcfg & (config' & Hm & [= <-])%bind_Ok)%bind_Ok.
    exists config, config'. split_and!; try done.
    + rewrite is_aivis_obj, dict_get_set_ne, Htag by done.
      cbn [mbind result_bind]. simpl. by rewrite dict_get_set_eq.
    + by rewrite !is_aivis_obj, dict_get_set_ne, Htag.
  - cbn [mbind result_bind].
    intros (config' & Hm & [= <-])%bind_Ok.
    exists (JObj d), config'. split_and!; try done.
    + destruct (merge_config_inv _ _ Hm) as (? & d' & [= <-] & -> & _ & _ & Hk & _).
      rewrite is_aivis_obj, Hk, Htag by done. done.
    + destruct (merge_config_inv _ _ Hm) as (? & d' & [= <-] & -> & _ & _ & Hk & _).
      by rewrite !is_aivis_obj, Hk, Htag.
Qed.

(** On a document whose configuration merges, the method succeeds. *)
Lemma add_styles_to_model_ok model_data config config' :
  config_of model_data = Ok config →
  merge_config config = Ok config' →
  ∃ model_data',
    add_styles_to_model model_data = Ok model_data' ∧
    config_of model_data' = Ok config'.
Proof.
  intros Hcfg Hm.
  assert (∃ model_data', add_styles_to_model model_data = Ok model_data')
    as [model_data' Hadd].
  { unfold add_styles_to_model. rewrite Hcfg.
    pose proof Hcfg as Htag'. unfold config_of in Htag'.
    destruct (is_aivis model_data) as [[]|] eqn:Htag; [| |done].
    - cbn [mbind result_bind]. rewrite Hm. cbn [mbind result_bind].
      destruct model_data; try discriminate. simpl. eauto.
    - cbn [mbind result_bind]. rewrite Hm. simpl. eauto. }
  exists model_data'. split; [done|].
  destruct (add_styles_to_model_inv _ _ Hadd) as (c & c' & Hc & Hm' & Hc' & _).
  congruence.
Qed.

Lemma merge_config_ok config :
  well_formed_config config = true →
  ∃ config', merge_config config = Ok config'.
Proof.
  intros Hwf. destruct config as [| | | | | |d]; try discriminate.
  rewrite merge_config_obj by done. rewrite add_to_speakers_obj.
  rewrite dict_get_set_ne, with_styles_other by done.
  simpl in Hwf. apply andb_prop in Hwf as [_ Hsp].
  destruct (dict_get "speakers" d) as [[| | | | |entries|]|]; try done; [|eauto].
  simpl. rewrite traverse_objects by done. simpl. eauto.
Qed.

(** On a configuration of the expected shape the merge rewrites the
    elements of [speakers] one by one and leaves the sequence in place. *)
Lemma merge_config_speakers d d' :
  well_formed_config (JObj d) = true →
  merge_config (JObj d) = Ok (JObj d') →
  dict_get "speakers" d' =
  (λ speakers, match speakers with
               | JArr entries => JArr (entry_after <$> entries)
               | _ => speakers
               end) <$> dict_get "speakers" d.
Proof.
  intros Hwf. rewrite merge_config_obj, add_to_speakers_obj by done.
  rewrite dict_get_set_ne, with_styles_other by done.
  simpl in Hwf. apply andb_prop in Hwf as [_ Hsp].
  destruct (dict_get "speakers" d) as [[| | | | |entries|]|] eqn:Hd;
    try done.
  - cbn [py_iter mbind result_bind]. rewrite traverse_objects by done.
    cbn [mbind result_bind]. intros [= <-]. by rewrite dict_get_set_eq.
  - intros [= <-]. by rewrite dict_get_set_ne, with_styles_other, Hd.
Qed.
End merge_whole.

(** ** The catalog in the merged configuration *)

Lemma catalog_table_params :
  Forall (λ row, ∃ name, (row.1, name) ∈ styles ∧ params_of row.1 = row.2.2)
         catalog_table.
Proof.
  unfold catalog_table.
  repeat (apply Forall_cons_2;
          [simpl; eexists; split; [|reflexivity]; unfold styles;
           repeat first [apply list_elem_of_here | apply list_elem_of_further]
          |]).
  apply Forall_nil_2.
Qed.

(** The shape of a merged configuration, shared by the statements below. *)
Lemma merged_config model_data config :
  config_of model_data = Ok config →
  well_formed_config config = true →
  ∃ model_data' d',
    add_styles_to_model model_data = Ok model_data' ∧
    config_of model_data' = Ok (JObj d') ∧
    merge_config config = Ok (JObj d') ∧
    dict_get "styles" d' = Some (JObj (add_entries styles (styles_of config))).
Proof.
  intros Hcfg Hwf.
  destruct (merge_config_ok _ Hwf) as [config' Hm].
  destruct (add_styles_to_model_ok _ _ _ Hcfg Hm) as (model_data' & Hadd & Hcfg').
  destruct (merge_config_inv _ _ Hm) as (d & d' & -> & -> & _ & Hst & _).
  by exists model_data', d'.
Qed.

(** C1, as amended.  On a document whose configuration has the expected
    shape, [add_styles_to_model] succeeds, and afterwards the [styles]
    mapping of the configuration maps each of the six identifiers of the
    catalog table to an entry whose [parameters] record is the tabulated
    one.  Entries under other identifiers are the ones the mapping held
    before, so the mapping has the six identifiers and no other exactly when
    it held no other before; starting from no entries, its keys are the six
    identifiers in catalog order. *)
Theorem merged_styles_hold_catalog model_data config :
  config_of model_data = Ok config →
  well_formed_config config = true →
  ∃ model_data' config' table',
    add_styles_to_model model_data = Ok model_data' ∧
    config_of model_data' = Ok config' ∧
    py_getitem "styles" config' = Ok (JObj table') ∧
    Forall (λ row, ∃ entry,
              dict_get row.1 table' = Some entry ∧
              py_getitem "parameters" entry = Ok row.2.2)
           catalog_table ∧
    (∀ k, k ∉ catalog_table.*1 →
          dict_get k table' = dict_get k (styles_of config)) ∧
    (styles_of config = [] → dict_keys table' = catalog_table.*1).
Proof.
  intros Hcfg Hwf.
  destruct (merged_config _ _ Hcfg Hwf) as (model_data' & d' & Hadd & Hcfg' & _ & Hst).
  exists model_data', (JObj d'), (add_entries styles (styles_of config)).
  split_and!; try done.
  - simpl. by rewrite Hst.
  - eapply Forall_impl; [apply catalog_table_params|].
    intros [id [name0 params]] (name & Hin & Hparams). cbn [fst snd] in *.
    exists (style_entry name (params_of id)). split.
    + apply add_entries_lookup; [apply styles_NoDup|done].
    + by rewrite <- Hparams.
  - intros k Hk. by apply add_entries_other.
  - by intros ->.
Qed.

Lemma merged_styles_hold_catalog_witness :
  ∃ model_data',
    add_styles_to_model
      (JObj [("name", JStr "model");
             ("styles", JObj [("whisper", JObj [("name", JStr "Whisper")])])]) =
    Ok model_data'.
Proof.
  destruct (merged_styles_hold_catalog
              (JObj [("name", JStr "model");
                     ("styles",
                      JObj [("whisper", JObj [("name", JStr "Whisper")])])])
              _ eq_refl eq_refl)
    as (model_data' & _ & _ & Hadd & _).
  by exists model_data'.
Defined.

(** C1, as stated, fails: a style the configuration already declares stays
    in the mapping, which then has seven identifiers. *)
Lemma merged_styles_not_only_catalog :
  ∃ table',
    add_styles_to_model
      (JObj [("styles", JObj [("whisper", JObj [("name", JStr "Whisper")])])]) =
    Ok (JObj [("styles", JObj table')]) ∧
    dict_keys table' =
      ["whisper"; "normal"; "standard"; "high_tension"; "calm"; "cheerful";
       "emotional"] ∧
    dict_keys table' ≠
      ["normal"; "standard"; "high_tension"; "calm"; "cheerful"; "emotional"].
Proof. eexists. split_and!; [reflexivity|reflexivity|discriminate]. Qed.

(** C8, as amended.  The entries written by [add_styles_to_model] carry the
    display names of [self.styles], which are Japanese. *)
Theorem merged_styles_display_names model_data config :
  config_of model_data = Ok config →
  well_formed_config config = true →
  ∃ model_data' config' table',
    add_styles_to_model model_data = Ok model_data' ∧
    config_of model_data' = Ok config' ∧
    py_getitem "styles" config' = Ok (JObj table') ∧
    Forall (λ item, ∃ entry,
              dict_get item.1 table' = Some entry ∧
              py_getitem "name" entry = Ok (JStr item.2))
           [ ("normal", "ノーマル");
             ("standard", "通常");
             ("high_tension", "テンション高め");
             ("calm", "落ち着き");
             ("cheerful", "上機嫌");
             ("emotional", "怒り・悲しみ") ].
Proof.
  intros Hcfg Hwf.
  destruct (merged_config _ _ Hcfg Hwf) as (model_data' & d' & Hadd & Hcfg' & _ & Hst).
  exists model_data', (JObj d'), (add_entries styles (styles_of config)).
  split_and!; try done.
  - simpl. by rewrite Hst.
  - apply Forall_forall. intros [id name] Hin.
    exists (style_entry name (params_of id)). split; [|done].
    apply add_entries_lookup; [apply styles_NoDup|done].
Qed.

Lemma merged_styles_display_names_witness :
  ∃ model_data',
    add_styles_to_model (JObj [("speakers", JArr [JObj [("id", JInt 1)]])]) =
    Ok model_data'.
Proof.
  destruct (merged_styles_display_names
              (JObj [("speakers", JArr [JObj [("id", JInt 1)]])])
              _ eq_refl eq_refl)
    as (model_data' & _ & _ & Hadd & _).
  by exists model_data'.
Defined.

(** C8, as stated, fails: the entry of ["normal"] is not named ["Normal"]. *)
Lemma merged_normal_not_named_Normal :
  ∃ table' entry,
    add_styles_to_model (JObj []) = Ok (JObj [("styles", JObj table')]) ∧
    dict_get "normal" table' = Some entry ∧
    py_getitem "name" entry = Ok (JStr "ノーマル") ∧
    py_getitem "name" entry ≠ Ok (JStr "Normal").
Proof. do 2 eexists. split_and!; [reflexivity|reflexivity|reflexivity|discriminate]. Qed.

(** C9.  [_get_style_parameters] answers every identifier: one that is not
    in its table gets the record of ["normal"]. *)
Theorem get_style_parameters_fallback style_id :
  style_id ∉ ["normal"; "standard"; "high_tension"; "calm"; "cheerful";
              "emotional"] →
  _get_style_parameters style_id =
  Ok (JObj [ ("speed", JFloat 1.0);
             ("pitch", JFloat 0.0);
             ("intonation", JFloat 1.0);
             ("volume", JFloat 1.0);
             ("emotion_strength", JFloat 0.5) ]).
Proof.
  intros Hid. rewrite get_style_parameters_eq. unfold params_of.
  by rewrite dict_get_None.
Qed.

Lemma get_style_parameters_fallback_witness :
  _get_style_parameters "whisper" =
  Ok (JObj [ ("speed", JFloat 1.0);
             ("pitch", JFloat 0.0);
             ("intonation", JFloat 1.0);
             ("volume", JFloat 1.0);
             ("emotion_strength", JFloat 0.5) ]).
Proof.
  apply get_style_parameters_fallback.
  apply (bool_decide_unpack _). vm_compute. exact I.
Defined.

(** ** Merging twice *)

(** C3.  When [add_styles_to_model] succeeds, applying it to its result
    succeeds again and returns that result unchanged: the same document,
    hence the same [styles] mapping. *)
Theorem add_styles_to_model_idempotent model_data once :
  add_styles_to_model model_data = Ok once →
  add_styles_to_model once = Ok once ∧
  ∀ twice config1 config2,
    add_styles_to_model once = Ok twice →
    config_of once = Ok config1 → config_of twice = Ok config2 →
    styles_of config2 = styles_of config1.
Proof.
  intros Hadd.
  assert (add_styles_to_model once = Ok once) as Hagain.
  { destruct (add_styles_to_model_inv _ _ Hadd)
      as (config & config' & _ & Hm & Hcfg' & Htag).
    apply merge_config_fixed in Hm.
    unfold add_styles_to_model. rewrite Hcfg'.
    pose proof Hcfg' as Hcfg''. unfold config_of in Hcfg''.
    destruct (is_aivis once) as [[]|] eqn:Hb; [| |done];
      cbn [mbind result_bind] in *; rewrite Hm; cbn [mbind result_bind].
    - destruct once as [| | | | | |d]; try discriminate. simpl in *.
      destruct (dict_get "config" d) eqn:Hd; [|done].
      injection Hcfg'' as ->. by rewrite dict_set_id.
    - done. }
  split; [done|].
  intros twice config1 config2 Htwice H1 H2. congruence.
Qed.

Lemma add_styles_to_model_idempotent_witness :
  let once :=
    JObj [ ("speakers",
            JArr [JObj [ ("id", JInt 1);
                         ("styles", JArr (JStr <$> style_ids)) ]]);
           ("styles", JObj (add_entries styles [])) ] in
  add_styles_to_model once = Ok once.
Proof.
  intros once.
  eapply proj1,
    (add_styles_to_model_idempotent
       (JObj [("speakers", JArr [JObj [("id", JInt 1)]])]) once).
  reflexivity.
Defined.

(** ** Speakers *)

(** C2.  On a configuration with a [speakers] sequence,
    [add_styles_to_model] gives every speaker entry without a [styles] field
    the list of the six identifiers in catalog order, changing no other
    field of it, and returns every entry that has a [styles] field as it
    was. *)
Theorem speakers_receive_style_ids model_data d entries :
  config_of model_data = Ok (JObj d) →
  well_formed_config (JObj d) = true →
  dict_get "speakers" d = Some (JArr entries) →
  ∃ model_data' d' entries',
    add_styles_to_model model_data = Ok model_data' ∧
    config_of model_data' = Ok (JObj d') ∧
    dict_get "speakers" d' = Some (JArr entries') ∧
    length entries' = length entries ∧
    ∀ i fields, entries !! i = Some (JObj fields) →
      ∃ fields',
        entries' !! i = Some (JObj fields') ∧
        (dict_get "styles" fields = None →
           dict_get "styles" fields' =
             Some (JArr [ JStr "normal"; JStr "standard"; JStr "high_tension";
                          JStr "calm"; JStr "cheerful"; JStr "emotional" ]) ∧
           ∀ k, k ≠ "styles" → dict_get k fields' = dict_get k fields) ∧
        (is_Some (dict_get "styles" fields) → fields' = fields).
Proof.
  intros Hcfg Hwf Hsp.
  destruct (merged_config _ _ Hcfg Hwf)
    as (model_data' & d' & Hadd & Hcfg' & Hm & _).
  pose proof (merge_config_speakers _ _ Hwf Hm) as Hsp'.
  rewrite Hsp in Hsp'. simpl in Hsp'.
  exists model_data', d', (entry_after <$> entries).
  split_and!; [done|done|done|by rewrite length_fmap|].
  intros i fields Hi. exists (speaker_after fields). split.
  - by rewrite list_lookup_fmap, Hi.
  - unfold speaker_after. split.
    + intros Hnone. rewrite (proj2 (dict_contains_false _ _) Hnone).
      split; [apply dict_get_set_eq|].
      intros k Hk. by apply dict_get_set_ne.
    + intros Hsome. by rewrite (proj2 (dict_contains_true _ _) Hsome).
Qed.

Lemma speakers_receive_style_ids_witness :
  ∃ model_data',
    add_styles_to_model
      (JObj [("speakers",
              JArr [ JObj [("id", JInt 1)];
                     JObj [("id", JInt 2); ("styles", JArr [JStr "calm"])] ])]) =
    Ok model_data'.
Proof.
  destruct (speakers_receive_style_ids
              (JObj [("speakers",
                      JArr [ JObj [("id", JInt 1)];
                             JObj [("id", JInt 2);
                                   ("styles", JArr [JStr "calm"])] ])])
              _ _ eq_refl eq_refl eq_refl)
    as (model_data' & _ & _ & Hadd & _).
  by exists model_data'.
Defined.

(** The example of the specification. *)
Example merge_spec_example :
  add_styles_to_model (JObj [("speakers", JArr [JObj [("id", JInt 1)]])]) =
  Ok (JObj
        [ ("speakers",
           JArr [JObj [ ("id", JInt 1);
                        ("styles",
                         JArr [ JStr "normal"; JStr "standard";
                                JStr "high_tension"; JStr "calm";
                                JStr "cheerful"; JStr "emotional" ]) ]]);
          ("styles",
           JObj [ ("normal", style_entry "ノーマル" (parameters 1.0 0.0 1.0 1.0 0.5));
                  ("standard", style_entry "通常" (parameters 1.0 0.0 1.0 1.0 0.5));
                  ("high_tension", style_entry "テンション高め" (parameters 1.2 0.2 1.5 1.2 0.8));
                  ("calm", style_entry "落ち着き" (parameters 0.9 (-0.1) 0.8 0.9 0.3));
                  ("cheerful", style_entry "上機嫌" (parameters 1.1 0.1 1.3 1.1 0.7));
                  ("emotional", style_entry "怒り・悲しみ" (parameters 0.95 (-0.2) 1.4 1.0 0.9)) ]) ]).
Proof. reflexivity. Qed.

(** ** Documents that can be written

    The merge adds strings of the catalog only, so a document without
    surrogates stays one. *)

Section encodable_facts.
Implicit Types (d table fields : list (string * json)).

Lemma encodable_obj d :
  encodable (JObj d) =
  forallb (λ kv, negb (has_surrogate kv.1) && encodable kv.2) d.
Proof. reflexivity. Qed.

Lemma encodable_set k v d :
  has_surrogate k = false → encodable v = true →
  encodable (JObj d) = true → encodable (JObj (dict_set k v d)) = true.
Proof.
  intros Hk Hv. rewrite !encodable_obj.
  induction d as [|[k0 v0] d IH]; cbn [dict_set forallb].
  - intros _. cbn [fst snd]. by rewrite Hk, Hv.
  - intros [H0 Hd]%andb_prop. destruct (decide (k0 = k)) as [->|Hne].
    + cbn [forallb fst snd]. by rewrite Hk, Hv, Hd.
    + cbn [forallb]. by rewrite H0, IH.
Qed.

Lemma encodable_get k v d :
  encodable (JObj d) = true → dict_get k d = Some v → encodable v = true.
Proof.
  rewrite encodable_obj.
  induction d as [|[k0 v0] d IH]; cbn [dict_get forallb]; [done|].
  intros [[_ H0]%andb_prop Hd]%andb_prop.
  destruct (decide (k0 = k)); [by intros [= <-]|by apply IH].
Qed.

Lemma add_entries_encodable items table :
  Forall (λ item, has_surrogate item.1 = false ∧
                  encodable (style_entry item.2 (params_of item.1)) = true)
         items →
  encodable (JObj table) = true →
  encodable (JObj (add_entries items table)) = true.
Proof.
  intros Hitems. revert table.
  induction Hitems as [|[id name] items [Hid Hentry] _ IH]; intros table Ht;
    [done|].
  rewrite add_entries_cons. apply IH. by apply encodable_set.
Qed.

Lemma styles_encodable :
  Forall (λ item, has_surrogate item.1 = false ∧
                  encodable (style_entry item.2 (params_of item.1)) = true)
         styles.
Proof.
  unfold styles.
  repeat (apply Forall_cons_2; [split; by vm_compute|]).
  apply Forall_nil_2.
Qed.

Lemma add_speaker_styles_encodable speaker speaker' :
  add_speaker_styles speaker = Ok speaker' →
  encodable speaker = true → encodable speaker' = true.
Proof.
  destruct speaker as [| | | | s|items|fields]; try discriminate.
  - unfold add_speaker_styles. simpl.
    destruct (str_contains "styles" s); [by intros [= <-]|done].
  - unfold add_speaker_styles. simpl.
    destruct (existsb (json_is_str "styles") items); [by intros [= <-]|done].
  - rewrite add_speaker_styles_obj. intros [= <-]. unfold speaker_after.
    destruct (dict_contains "styles" fields); [done|].
    intros Hf. apply encodable_set; [by vm_compute|by vm_compute|done].
Qed.

Lemma traverse_encodable entries entries' :
  traverse add_speaker_styles entries = Ok entries' →
  forallb encodable entries = true → forallb encodable entries' = true.
Proof.
  revert entries'. induction entries as [|x entries IH]; intros entries'.
  - by intros [= <-].
  - cbn [traverse].
    intros (y & Hy & (ys & Hys & [= <-])%bind_Ok)%bind_Ok.
    cbn [forallb]. intros [Hx Hrest]%andb_prop.
    by rewrite (add_speaker_styles_encodable _ _ Hy Hx), (IH _ Hys Hrest).
Qed.

(** A successful merge of a configuration that can be written gives one
    that can be written. *)
Lemma merge_config_encodable config config' :
  merge_config config = Ok config' →
  encodable config = true → encodable config' = true.
Proof.
  intros Hm Henc.
  destruct (merge_config_inv _ _ Hm)
    as (d & d' & -> & -> & Hdef & _ & _ & Hsp).
  set (table := styles_of (JObj d)) in *.
  assert (encodable (JObj table) = true) as Htable.
  { destruct (dict_get "styles" d) as [x|] eqn:Hd; simpl in Hdef.
    - subst x. by eapply encodable_get.
    - by injection Hdef as <-. }
  assert (encodable (JObj (with_styles d)) = true) as Hwith.
  { unfold with_styles. destruct (dict_contains "styles" d); [done|].
    by apply encodable_set. }
  pose proof (encodable_set "styles" _ _ eq_refl
                (add_entries_encodable _ _ styles_encodable Htable) Hwith)
    as Hmid.
  revert Hsp Hmid.
  generalize (dict_set "styles" (JObj (add_entries styles table))
                       (with_styles d)).
  intros mid. rewrite add_to_speakers_obj.
  destruct (dict_get "speakers" mid) as [speakers|] eqn:Hspk;
    [|by intros [= <-]].
  intros (entries & Hiter & (entries' & Htr & [= Hd'])%bind_Ok)%bind_Ok Hmid.
  destruct speakers; try discriminate; try (by injection Hd' as <-).
  injection Hiter as <-. injection Hd' as <-.
  apply encodable_set; [done| |done].
  apply (traverse_encodable _ _ Htr).
  by apply (encodable_get _ _ _ Hmid Hspk).
Qed.
End encodable_facts.

(** ** Strings and paths *)

Section string_facts.
Implicit Types (s pre suffix rest : string).

Lemma string_app_assoc s1 s2 s3 : (s1 +:+ s2) +:+ s3 = s1 +:+ (s2 +:+ s3).
Proof.
  induction s1 as [|c s1 IH]; [done|].
  change (String c ((s1 +:+ s2) +:+ s3) = String c (s1 +:+ (s2 +:+ s3))).
  by f_equal.
Qed.

Lemma strip_prefix_spec pre s rest :
  strip_prefix pre s = Some rest ↔ s = pre +:+ rest.
Proof.
  revert s. induction pre as [|a pre IH]; intros s; simpl.
  - split; [by intros [= ->]|by intros ->].
  - destruct s as [|b s]; [done|].
    destruct (decide (a = b)) as [->|Hne].
    + rewrite IH. split; [by intros ->|by intros [= ->]].
    + split; [done|]. by intros [= -> _].
Qed.

Lemma endswith_spec s suffix :
  endswith s suffix = true ↔ ∃ stem, s = stem +:+ suffix.
Proof.
  induction s as [|c s IH]; simpl.
  - rewrite orb_false_r, bool_decide_eq_true. split.
    + intros <-. by exists "".
    + intros ([|] & Hs); simpl in Hs; [done|discriminate].
  - rewrite orb_true_iff, bool_decide_eq_true, IH. split.
    + intros [<-|(stem & ->)]; [by exists ""|by exists (String c stem)].
    + intros ([|c' stem] & Hs); simpl in Hs; [by left|].
      injection Hs as -> ->. right. by exists stem.
Qed.

(** A path ending in [.json] does not end in [.aivis]. *)
Lemma endswith_json_not_aivis s :
  endswith s ".json" = true → endswith s ".aivis" = false.
Proof.
  induction s as [|c s IH]; [done|].
  simpl. rewrite orb_true_iff, bool_decide_eq_true, orb_false_iff.
  intros [Hs|Hs].
  - injection Hs as -> ->. by vm_compute.
  - split; [|by apply IH].
    apply bool_decide_eq_false. intros Heq. by simplify_eq.
Qed.

Lemma under_path_join dir name sub :
  under (path_join dir sub) (path_join dir name) ↔ under sub name.
Proof.
  unfold under, is_Some.
  setoid_rewrite strip_prefix_spec. unfold path_join.
  split; intros [rest Hrest]; exists rest.
  - rewrite !string_app_assoc in Hrest.
    apply (inj (String.app dir)) in Hrest.
    apply (inj (String.app "/")) in Hrest.
    by rewrite string_app_assoc.
  - rewrite Hrest. by rewrite !string_app_assoc.
Qed.

Lemma path_join_inj dir name name' :
  path_join dir name = path_join dir name' → name = name'.
Proof.
  unfold path_join. intros H.
  apply (inj (String.app dir)) in H. by apply (inj (String.app "/")) in H.
Qed.
End string_facts.

(** ** Sequencing operations on files *)

Lemma io_bind_ok {A B : Type} (m : io A) (f : A → io B) fs a fs' :
  m fs = (Ok a, fs') → (m ≫= f) fs = f a fs'.
Proof. intros Hm. unfold mbind, io_bind. by rewrite Hm. Qed.

Lemma open_read_file p c fs :
  files fs !! p = Some c → open_read p fs = (Ok c, fs).
Proof. intros Hp. unfold open_read. by rewrite Hp. Qed.

(** ** Unsupported formats *)

(** C7.  A path that ends neither in [.aivis] nor in [.json] makes
    [load_model] raise the unsupported-format [ValueError], and the file
    system is left exactly as it was: nothing is written, no staging
    directory is made. *)
Theorem load_model_unsupported_format model_path fs :
  (∀ stem, model_path ≠ stem +:+ ".aivis") →
  (∀ stem, model_path ≠ stem +:+ ".json") →
  load_model model_path fs =
  (Raise (ValueError "サポートされていないファイル形式です"), fs).
Proof.
  intros Haivis Hjson. unfold load_model.
  destruct (endswith model_path ".aivis") eqn:H1.
  { apply endswith_spec in H1 as [stem ->]. by destruct (Haivis stem). }
  destruct (endswith model_path ".json") eqn:H2.
  { apply endswith_spec in H2 as [stem ->]. by destruct (Hjson stem). }
  done.
Qed.

Lemma load_model_unsupported_format_witness :
  load_model "voice.onnx" (Filesystem {["voice.onnx" := Blob "weights"]} ∅) =
  (Raise (ValueError "サポートされていないファイル形式です"),
   Filesystem {["voice.onnx" := Blob "weights"]} ∅).
Proof.
  apply load_model_unsupported_format.
  - intros stem Hstem.
    assert (endswith "voice.onnx" ".aivis" = true) as Hends
      by (apply endswith_spec; eauto).
    vm_compute in Hends. discriminate.
  - intros stem Hstem.
    assert (endswith "voice.onnx" ".json" = true) as Hends
      by (apply endswith_spec; eauto).
    vm_compute in Hends. discriminate.
Defined.

(** ** The variant tag inside the document *)

(** C10.  A plain JSON file whose object has ["type": "aivis"] but neither
    ["config"] nor ["temp_dir"] loads as that object, and both
    [add_styles_to_model] and [save_model] then take the packaged path: the
    first raises [KeyError] on ["config"], the second on ["temp_dir"],
    before anything is written. *)
Theorem plain_document_tagged_aivis model_path output_path d fs :
  (∃ stem, model_path = stem +:+ ".json") →
  files fs !! model_path = Some (JsonText (JObj d)) →
  dict_get "type" d = Some (JStr "aivis") →
  dict_get "config" d = None →
  dict_get "temp_dir" d = None →
  load_model model_path fs = (Ok (JObj d), fs) ∧
  add_styles_to_model (JObj d) = Raise (KeyError "config") ∧
  save_model (JObj d) output_path fs = (Raise (KeyError "temp_dir"), fs).
Proof.
  intros Hjson%endswith_spec Hfile Htype Hconfig Htemp. split_and!.
  - unfold load_model.
    rewrite (endswith_json_not_aivis _ Hjson), Hjson.
    by rewrite (io_bind_ok _ _ _ _ _ (open_read_file _ _ _ Hfile)).
  - unfold add_styles_to_model, config_of. rewrite is_aivis_obj, Htype.
    simpl. by rewrite Hconfig.
  - unfold save_model, lift, mbind, io_bind. rewrite is_aivis_obj, Htype.
    simpl. unfold _save_aivis_model, lift, mbind, io_bind. simpl.
    by rewrite Htemp.
Qed.

Lemma plain_document_tagged_aivis_witness :
  add_styles_to_model (JObj [("type", JStr "aivis"); ("name", JStr "model")]) =
  Raise (KeyError "config").
Proof.
  eapply proj1, proj2,
    (plain_document_tagged_aivis "model.json" "out/model_styled.json"
       [("type", JStr "aivis"); ("name", JStr "model")]
       (Filesystem
          {["model.json" :=
              JsonText (JObj [("type", JStr "aivis"); ("name", JStr "model")])]}
          {["out"]})).
  - by exists "model".
  - reflexivity.
  - reflexivity.
  - reflexivity.
  - reflexivity.
Defined.

(** ** The plain round trip *)

Lemma is_aivis_not_tagged d :
  dict_get "type" d ≠ Some (JStr "aivis") → is_aivis (JObj d) = Ok false.
Proof.
  intros Htype. rewrite is_aivis_obj.
  destruct (dict_get "type" d) as [v|]; [|done].
  destruct (json_is_str "aivis" v) eqn:Hv; [|done].
  apply json_is_str_true in Hv as ->. by destruct Htype.
Qed.

Lemma load_model_json model_path j fs :
  (∃ stem, model_path = stem +:+ ".json") →
  files fs !! model_path = Some (JsonText j) →
  load_model model_path fs = (Ok j, fs).
Proof.
  intros Hjson%endswith_spec Hfile. unfold load_model.
  rewrite (endswith_json_not_aivis _ Hjson), Hjson.
  by rewrite (io_bind_ok _ _ _ _ _ (open_read_file _ _ _ Hfile)).
Qed.

Lemma save_model_plain model_data output_path fs :
  is_aivis model_data = Ok false →
  encodable model_data = true →
  is_dir output_path fs = false →
  is_dir (dirname output_path) fs = true →
  save_model model_data output_path fs =
  (Ok (),
   Filesystem (<[output_path := JsonText model_data]> (files fs)) (dirs fs)).
Proof.
  intros Htag Henc Hout Hparent.
  unfold save_model, lift, mbind, io_bind, open_write, json_dump.
  rewrite Htag, Hout, Hparent, Henc. simpl. by rewrite insert_insert_eq.
Qed.

(** C4, as amended.  A plain JSON file holding a configuration object of
    the expected shape whose ["type"] is not ["aivis"] and whose strings
    hold no lone surrogate goes through load, merge and save to a writable
    [.json] path; loading the written file gives a configuration in which
    every key other than [styles] and [speakers] has the value it had, and
    whose [styles] mapping maps each identifier of the catalog table to an
    entry with the tabulated parameters, the entries under other
    identifiers being those of the original.  The [speakers] sequence comes
    back with each entry that lacked [styles] given the list of
    identifiers, and is otherwise unchanged. *)
Theorem plain_round_trip input_file output_file d fs :
  (∃ stem, input_file = stem +:+ ".json") →
  (∃ stem, output_file = stem +:+ ".json") →
  files fs !! input_file = Some (JsonText (JObj d)) →
  dict_get "type" d ≠ Some (JStr "aivis") →
  well_formed_config (JObj d) = true →
  encodable (JObj d) = true →
  is_dir output_file fs = false →
  is_dir (dirname output_file) fs = true →
  ∃ d' fs' table',
    process_file input_file output_file fs = (Ok (), fs') ∧
    load_model output_file fs' = (Ok (JObj d'), fs') ∧
    (∀ k, k ≠ "styles" → k ≠ "speakers" → dict_get k d' = dict_get k d) ∧
    dict_get "styles" d' = Some (JObj table') ∧
    Forall (λ row, ∃ entry,
              dict_get row.1 table' = Some entry ∧
              py_getitem "parameters" entry = Ok row.2.2)
           catalog_table ∧
    (∀ k, k ∉ catalog_table.*1 →
          dict_get k table' = dict_get k (styles_of (JObj d))) ∧
    dict_get "speakers" d' =
      (λ speakers, match speakers with
                   | JArr entries => JArr (entry_after <$> entries)
                   | _ => speakers
                   end) <$> dict_get "speakers" d.
Proof.
  intros Hin Hout Hfile Htype Hwf Henc Hfree Hparent.
  pose proof (is_aivis_not_tagged _ Htype) as Htag.
  assert (config_of (JObj d) = Ok (JObj d)) as Hcfg.
  { unfold config_of. by rewrite Htag. }
  destruct (merged_config _ _ Hcfg Hwf)
    as (model_data' & d' & Hadd & Hcfg' & Hm & Hst).
  destruct (add_styles_to_model_inv _ _ Hadd)
    as (config & config' & Hc & Hm' & Hc' & Htag').
  assert (model_data' = JObj d') as ->.
  { rewrite Htag in Htag'. unfold config_of in Hcfg'. rewrite Htag' in Hcfg'.
    by injection Hcfg'. }
  destruct (merge_config_inv _ _ Hm) as (? & ? & [= <-] & [= <-] & _ & _ & Hk & _).
  eexists d', _, (add_entries styles (styles_of (JObj d))).
  split_and!.
  - unfold process_file.
    rewrite (io_bind_ok _ _ _ _ _ (load_model_json _ _ _ Hin Hfile)).
    unfold lift at 1. rewrite Hadd.
    unfold mbind at 1, io_bind at 1.
    apply save_model_plain; [congruence| |done..].
    by apply (merge_config_encodable _ _ Hm).
  - apply load_model_json; [done|]. apply lookup_insert_eq.
  - done.
  - done.
  - eapply Forall_impl; [apply catalog_table_params|].
    intros [id [name0 params]] (name & Hin' & Hparams). cbn [fst snd] in *.
    exists (style_entry name (params_of id)). split.
    + apply add_entries_lookup; [apply styles_NoDup|done].
    + by rewrite <- Hparams.
  - intros k Hout_of_table. by apply add_entries_other.
  - by apply merge_config_speakers.
Qed.

Lemma plain_round_trip_witness :
  ∃ fs',
    process_file "model.json" "out/model_styled.json"
      (Filesystem
         {["model.json" :=
             JsonText (JObj [("name", JStr "model"); ("version", JInt 2)])]}
         {["out"]}) =
    (Ok (), fs').
Proof.
  destruct (plain_round_trip "model.json" "out/model_styled.json"
              [("name", JStr "model"); ("version", JInt 2)]
              (Filesystem
                 {["model.json" :=
                     JsonText (JObj [("name", JStr "model");
                                     ("version", JInt 2)])]}
                 {["out"]}))
    as (d' & fs' & table' & Hrun & _).
  - by exists "model".
  - by exists "out/model_styled".
  - reflexivity.
  - discriminate.
  - reflexivity.
  - reflexivity.
  - by vm_compute.
  - by vm_compute.
  - by exists fs'.
Defined.

(** C4, as stated, fails on three plain JSON inputs: an object tagged
    ["type": "aivis"] is not merged at all; an object that declares a style
    of its own comes back with that style next to the six of the catalog;
    and an object with a lone surrogate in a string, which [json.load]
    accepts, cannot be written back, so that the save raises and leaves the
    beginning of a text that no longer loads. *)
Lemma plain_round_trip_counterexample :
  let fs :=
    Filesystem
      {[ "tagged.json" :=
           JsonText (JObj [("type", JStr "aivis"); ("name", JStr "model")]);
         "own.json" :=
           JsonText (JObj [("styles", JObj [("whisper", JObj [])])]);
         "lone.json" :=
           JsonText (JObj [("name", JStr lone_surrogate)]) ]}
      {["out"]} in
  (process_file "tagged.json" "out/tagged_styled.json" fs).1 =
    Raise (KeyError "config") ∧
  (∃ table',
    ((process_file "own.json" "out/own_styled.json";;
      load_model "out/own_styled.json") fs).1 =
      Ok (JObj [("styles", JObj table')]) ∧
    dict_get "whisper" table' = Some (JObj []) ∧
    dict_keys table' ≠ catalog_table.*1) ∧
  (process_file "lone.json" "out/lone_styled.json" fs).1 =
    Raise UnicodeEncodeError ∧
  (load_model "out/lone_styled.json"
     (process_file "lone.json" "out/lone_styled.json" fs).2).1 =
    Raise JSONDecodeError.
Proof.
  split; [by vm_compute|]. split.
  - eexists. split_and!; [by vm_compute|reflexivity|discriminate].
  - split; by vm_compute.
Qed.

(** ** Paths *)

Section path_facts.
Implicit Types (dir p q name rest : string) (fs : filesystem).

Lemma under_spec dir p : under dir p ↔ ∃ rest, p = path_join dir rest.
Proof.
  unfold under, is_Some, path_join. setoid_rewrite strip_prefix_spec.
  split; intros [rest ->]; exists rest; by rewrite string_app_assoc.
Qed.

Lemma under_path_join_self dir name : under dir (path_join dir name).
Proof. apply under_spec. by exists name. Qed.

Lemma under_inv dir p : under dir p → ∃ name, p = path_join dir name.
Proof. by intros ?%under_spec. Qed.

Lemma under_cons c q p : under (String c q) (String c p) ↔ under q p.
Proof.
  rewrite !under_spec. unfold path_join. split; intros [rest Hrest]; exists rest.
  - change (String c p = String c (q +:+ "/" +:+ rest)) in Hrest.
    by injection Hrest.
  - change (String c p = String c (q +:+ "/" +:+ rest)). by f_equal.
Qed.

Lemma under_nil c p : under "" (String c p) ↔ c = "/"%char.
Proof.
  rewrite under_spec. unfold path_join. split.
  - intros [rest Hrest]. change (String c p = String "/" rest) in Hrest.
    by injection Hrest.
  - intros ->. by exists p.
Qed.

Lemma string_app_eq_inv s1 s2 t1 t2 :
  s1 +:+ s2 = t1 +:+ t2 →
  (∃ w, t1 = s1 +:+ w ∧ s2 = w +:+ t2) ∨ (∃ w, s1 = t1 +:+ w ∧ t2 = w +:+ s2).
Proof.
  revert t1. induction s1 as [|c s1 IH]; intros t1 Heq.
  - left. by exists t1.
  - destruct t1 as [|c' t1].
    + right. by exists (String c s1).
    + change (String c (s1 +:+ s2) = String c' (t1 +:+ t2)) in Heq.
      injection Heq as -> Heq.
      destruct (IH _ Heq) as [(w & -> & ->)|(w & -> & ->)];
        [left|right]; by exists w.
Qed.

Lemma string_app_nil_r s : s +:+ "" = s.
Proof.
  induction s as [|c s IH]; [done|].
  change (String c (s +:+ "") = String c s). by f_equal.
Qed.

Lemma has_slash_app a b : has_slash (a +:+ "/" +:+ b) = true.
Proof.
  induction a as [|c a IH]; [done|].
  change (has_slash (String c (a +:+ "/" +:+ b)) = true).
  simpl. by rewrite IH, orb_true_r.
Qed.

Lemma under_has_slash dir p : under dir p → has_slash p = true.
Proof. intros [name ->]%under_inv. apply has_slash_app. Qed.

(** A path with a file of another directory below it is that directory,
    lies below it, or has it below. *)
Lemma under_path_join_cases a b name :
  under a (path_join b name) → a = b ∨ under b a ∨ under a b.
Proof.
  intros [rest Hrest]%under_inv. unfold path_join in Hrest.
  symmetry in Hrest.
  apply string_app_eq_inv in Hrest as [(w & -> & Hw)|(w & -> & Hw)].
  - destruct w as [|c w].
    + left. by rewrite string_app_nil_r.
    + change (String "/" rest = String c (w +:+ "/" +:+ name)) in Hw.
      injection Hw as <- _. right; right. apply under_path_join_self.
  - destruct w as [|c w].
    + left. by rewrite string_app_nil_r.
    + change (String "/" name = String c (w +:+ "/" +:+ rest)) in Hw.
      injection Hw as <- _. right; left. apply under_path_join_self.
Qed.

Lemma under_trans a name p : under (path_join a name) p → under a p.
Proof.
  intros [rest ->]%under_inv. unfold path_join at 1.
  unfold path_join. rewrite !string_app_assoc.
  change (under a (path_join a (name +:+ "/" +:+ rest))).
  apply under_path_join_self.
Qed.

Lemma under_under a b p : under a b → under b p → under a p.
Proof. intros [name ->]%under_inv. apply under_trans. Qed.

Lemma dirname_no_slash p : has_slash p = false → dirname p = "".
Proof.
  destruct p as [|c p]; [done|]. simpl.
  intros [_ ->]%orb_false_elim. done.
Qed.

Lemma dirname_path_join dir name :
  has_slash name = false → dirname (path_join dir name) = dir.
Proof.
  intros Hname. unfold path_join. induction dir as [|c dir IH].
  - change (dirname (String "/" name) = ""). simpl. by rewrite Hname.
  - change (dirname (String c (dir +:+ "/" +:+ name)) = String c dir).
    simpl. by rewrite has_slash_app, IH.
Qed.

(** The directory of a path with a [/] in it is on the way to it. *)
Lemma under_dirname p : has_slash p = true → under (dirname p) p.
Proof.
  induction p as [|c p IH]; [done|]. simpl.
  destruct (has_slash p) eqn:Hp.
  - intros _. apply under_cons. by apply IH.
  - rewrite orb_false_r. intros Hc%bool_decide_eq_true. by apply under_nil.
Qed.

Lemma elem_of_ancestors q p : q ∈ ancestors p ↔ under q p.
Proof.
  revert q. induction p as [|c p IH]; intros q.
  - split; [by intros ?%elem_of_nil|]. intros [rest Hrest]%under_inv.
    destruct q; discriminate.
  - cbn [ancestors]. rewrite elem_of_app, list_elem_of_fmap. split.
    + intros [Hq|(q' & -> & Hq')].
      * destruct (bool_decide (c = "/"%char)) eqn:Hc.
        -- apply list_elem_of_singleton in Hq as ->.
           apply under_nil. by apply bool_decide_eq_true in Hc.
        -- by apply elem_of_nil in Hq.
      * apply under_cons. by apply IH.
    + intros Hu. destruct q as [|c' q].
      * left. apply under_nil in Hu as ->. apply list_elem_of_here.
      * right. apply under_inv in Hu as [rest Hrest].
        change (String c p = String c' (q +:+ "/" +:+ rest)) in Hrest.
        injection Hrest as -> ->. exists q. split; [done|].
        apply IH, under_path_join_self.
Qed.

Lemma below_file_true p fs :
  below_file p fs = true ↔ ∃ q, under q p ∧ is_file q fs = true.
Proof.
  unfold below_file. rewrite existsb_exists.
  split; intros (q & Hq & Hfile); exists q.
  - split; [|done]. by apply elem_of_ancestors, list_elem_of_In.
  - split; [|done]. by apply list_elem_of_In, elem_of_ancestors.
Qed.

Lemma path_join_ne dir name : path_join dir name ≠ dir.
Proof.
  unfold path_join. induction dir as [|c dir IH]; [done|].
  change (String c (dir +:+ "/" +:+ name) ≠ String c dir). congruence.
Qed.

(** *** Paths of [pathlib] *)

Lemma under_relative_to dir p : under dir p → is_Some (relative_to dir p).
Proof.
  intros Hu. unfold relative_to. case_bool_decide as Hdot.
  - subst dir. apply under_inv in Hu as [rest ->]. by eexists.
  - destruct (endswith dir "/"); [|done].
    apply under_inv in Hu as [rest ->]. exists (String "/" rest).
    by apply strip_prefix_spec.
Qed.

Lemma relative_to_under dir p :
  dir ≠ "." → endswith dir "/" = false →
  relative_to dir p = strip_prefix (dir +:+ "/") p.
Proof.
  intros Hdot Hroot. unfold relative_to.
  by rewrite bool_decide_eq_false_2, Hroot.
Qed.

(** A path is found below a directory under one name only. *)
Lemma relative_to_Some dir p name :
  relative_to dir p = Some name → p = joinpath dir name.
Proof.
  unfold relative_to, joinpath. case_bool_decide as Hdot.
  - destruct (_ || _); [done|]. by intros [= ->].
  - destruct (endswith dir "/").
    + by intros ->%strip_prefix_spec.
    + intros ->%strip_prefix_spec. unfold path_join.
      by rewrite string_app_assoc.
Qed.

Lemma relative_to_joinpath dir name :
  name ≠ "" → String.prefix "/" name = false →
  relative_to dir (joinpath dir name) = Some name.
Proof.
  intros Hname Habs. unfold relative_to, joinpath. case_bool_decide as Hdot.
  - by rewrite Habs, bool_decide_eq_false_2.
  - destruct (endswith dir "/").
    + by apply strip_prefix_spec.
    + apply strip_prefix_spec. unfold path_join.
      by rewrite string_app_assoc.
Qed.

Lemma Path_staging : Path temp_aivis_extract = temp_aivis_extract.
Proof. by vm_compute. Qed.

Lemma joinpath_staging name :
  joinpath temp_aivis_extract name = path_join temp_aivis_extract name.
Proof. reflexivity. Qed.

Lemma relative_to_staging p :
  relative_to temp_aivis_extract p =
  strip_prefix (temp_aivis_extract +:+ "/") p.
Proof. by apply relative_to_under. Qed.

(** *** Directories *)

Lemma is_dir_true dir fs :
  is_dir dir fs = true ↔
  dir = "" ∨ dir ∈ dirs fs ∨ ∃ p c, files fs !! p = Some c ∧ under dir p.
Proof. unfold is_dir. by rewrite bool_decide_eq_true. Qed.

Lemma is_dir_false dir fs :
  is_dir dir fs = false ↔
  dir ≠ "" ∧ (dir ∉ dirs fs) ∧ ∀ p c, files fs !! p = Some c → ¬ under dir p.
Proof.
  rewrite <- not_true_iff_false, is_dir_true. split.
  - intros Hnot. split_and!; [tauto|tauto|]. intros p c Hp Hu.
    apply Hnot. right; right. by exists p, c.
  - intros (? & ? & Hfiles) [?|[?|(p & c & Hp & Hu)]]; [done|done|].
    by eapply Hfiles.
Qed.

(** A directory stays one while nothing is removed. *)
Lemma is_dir_mono fs fs' dir :
  dirs fs ⊆ dirs fs' →
  (∀ p, is_Some (files fs !! p) → is_Some (files fs' !! p)) →
  is_dir dir fs = true → is_dir dir fs' = true.
Proof.
  intros Hdirs Hfiles. rewrite !is_dir_true.
  intros [?|[?|(p & c & Hp & Hunder)]]; [by left|right; left; auto|].
  destruct (Hfiles p (mk_is_Some _ _ Hp)) as [c' Hp'].
  right; right. by exists p, c'.
Qed.
End path_facts.

(** ** The staging directory *)

Section staging.
Implicit Types (fs : filesystem) (members : list (string * content)).
Implicit Types (fl : gmap string content) (names : list string).

Lemma is_dir_rmtree dir fs : dir ≠ "" → is_dir dir (rmtree dir fs).2 = false.
Proof.
  intros Hdir. apply is_dir_false. split_and!; [done| |].
  - simpl. intros [[? _] _]%elem_of_filter. done.
  - simpl. intros p c [_ Hnone]%map_lookup_filter_Some Hunder.
    apply under_relative_to in Hunder as [name Hname]. simpl in Hnone.
    congruence.
Qed.

Lemma mkdir_exist_ok_raise dir fs e fs' :
  mkdir_exist_ok dir fs = (Raise e, fs') → fs' = fs ∧ is_dir dir fs = false.
Proof.
  unfold mkdir_exist_ok. destruct (is_dir dir fs); [done|].
  destruct (is_file dir fs); [by intros [= _ <-]|].
  destruct (is_dir (dirname dir) fs); [done|by intros [= _ <-]].
Qed.

(** Making the staging directory: it is there afterwards, and nothing else
    has changed. *)
Lemma mkdir_exist_ok_inv dir fs fs0 :
  mkdir_exist_ok dir fs = (Ok (), fs0) →
  is_dir dir fs0 = true ∧ files fs0 = files fs ∧
  dirs fs ⊆ dirs fs0 ∧ dirs fs0 ⊆ {[dir]} ∪ dirs fs ∧
  (is_dir dir fs = true → fs0 = fs).
Proof.
  unfold mkdir_exist_ok. destruct (is_dir dir fs) eqn:Hdir.
  { intros [= <-]. split_and!; [done|done|done|set_solver|done]. }
  destruct (is_file dir fs); [done|].
  destruct (is_dir (dirname dir) fs); [|done].
  intros [= <-]. split_and!; [|done|set_solver|done|done].
  apply is_dir_true. right; left. set_solver.
Qed.

Lemma mkdir_exist_ok_staging fs :
  is_file temp_aivis_extract fs = false →
  ∃ fs0, mkdir_exist_ok temp_aivis_extract fs = (Ok (), fs0).
Proof.
  intros Hfile. unfold mkdir_exist_ok. rewrite Hfile.
  destruct (is_dir temp_aivis_extract fs); eauto.
Qed.

(** *** Extraction *)

Lemma makedirs_inv d fs fs' :
  makedirs d fs = (Ok (), fs') →
  files fs' = files fs ∧ dirs fs ⊆ dirs fs' ∧
  ∀ q, q ∈ dirs fs' →
       q ∈ dirs fs ∨ (is_dir q fs = false ∧ (q = d ∨ under q d)).
Proof.
  unfold makedirs. destruct (below_file d fs); [done|].
  destruct (is_file d fs || is_dir d fs); [done|].
  intros [= <-]. split_and!; [done|set_solver|]. simpl.
  intros q [Hq|Hq]%elem_of_union; [|by left]. right.
  apply elem_of_list_to_set, list_elem_of_filter in Hq as [Hnot Hq].
  split; [done|].
  apply elem_of_app in Hq as [Hq|Hq]; [right|left].
  - by apply elem_of_ancestors.
  - by apply list_elem_of_singleton in Hq.
Qed.

(** What one member did when its extraction went through. *)
Lemma extract_member_inv dir name data fs fs' :
  has_slash dir = false → is_dir dir fs = true →
  extract_member dir name data fs = (Ok (), fs') →
  files fs' =
    (if endswith name "/" then files fs
     else <[path_join dir (sanitise name) := data]> (files fs)) ∧
  dirs fs ⊆ dirs fs' ∧
  (∀ d, d ∈ dirs fs' → d ∈ dirs fs ∨ under dir d).
Proof.
  intros Hplain Hdir. unfold extract_member.
  set (arcname := sanitise name).
  set (target := if bool_decide (arcname = "") then dir
                 else path_join dir arcname).
  unfold mbind at 1, io_bind at 1, path_exists at 1.
  unfold mbind at 1, io_bind at 1.
  (* the directories above the target *)
  assert (∀ fs1,
    (if bool_decide (dirname target ≠ "") &&
        negb (is_file (dirname target) fs || is_dir (dirname target) fs)
     then makedirs (dirname target) else mret ()) fs = (Ok (), fs1) →
    files fs1 = files fs ∧ dirs fs ⊆ dirs fs1 ∧
    (∀ d, d ∈ dirs fs1 → d ∈ dirs fs ∨ under dir d)) as Hupper.
  { intros fs1. destruct (_ && _) eqn:Hcond; [|by intros [= <-]; auto].
    apply andb_prop in Hcond as [Hne%bool_decide_eq_true _].
    intros (Hfiles & Hdirs & Hnew)%makedirs_inv. split_and!; [done|done|].
    intros d [Hd|[Hnot Hd]]%Hnew; [by left|right].
    assert (under d target) as Hd_target.
    { assert (has_slash target = true) as Hslash.
      { destruct (has_slash target) eqn:Hs; [done|].
        by rewrite dirname_no_slash in Hne. }
      destruct Hd as [->|Hd]; [by apply under_dirname|].
      eapply under_under; [done|by apply under_dirname]. }
    subst target. case_bool_decide as Harc.
    { by rewrite (under_has_slash _ _ Hd_target) in Hplain. }
    apply under_path_join_cases in Hd_target as [->|[?|Hbad]]; [congruence|done|].
    by rewrite (under_has_slash _ _ Hbad) in Hplain. }
  match goal with
  | |- context [let (_, _) := ?upper fs in _] =>
      destruct (upper fs) as [[[]|] fs1] eqn:Hmk; [|done]
  end.
  destruct (Hupper _ eq_refl) as (Hfiles1 & Hdirs1 & Hnew1). clear Hupper Hmk.
  assert (is_dir dir fs1 = true) as Hdir1.
  { eapply is_dir_mono; [done| |done]. by rewrite Hfiles1. }
  case_bool_decide as Hname; [done|].
  destruct (endswith name "/").
  - unfold mbind at 1, io_bind at 1, isdir at 1.
    destruct (is_dir target fs1) eqn:Htarget; [by intros [= <-]|].
    unfold mkdir. destruct (is_file target fs1 || is_dir target fs1); [done|].
    destruct (is_dir (dirname target) fs1); [|done].
    intros [= <-]. split_and!; [done|set_solver|]. simpl.
    intros d [Hd%elem_of_singleton|Hd]%elem_of_union; [|by apply Hnew1].
    right. subst d target. case_bool_decide; [congruence|].
    apply under_path_join_self.
  - unfold mbind at 1, io_bind at 1, open_write at 1.
    destruct (is_dir target fs1) eqn:Htarget; [done|].
    destruct (is_dir (dirname target) fs1); [|done].
    unfold write_file. intros [= <-]. cbn [files dirs].
    rewrite insert_insert_eq, Hfiles1. split_and!; [|done|done].
    subst target. case_bool_decide; [congruence|done].
Qed.

(** What the loop over the names did when it went through. *)
Lemma extract_names_inv dir (info : string → content) names fs fs' :
  has_slash dir = false → is_dir dir fs = true →
  io_for_each (λ name, extract_member dir name (info name)) names fs =
    (Ok (), fs') →
  files fs' =
    foldl (λ fl name,
             if endswith name "/" then fl
             else <[path_join dir (sanitise name) := info name]> fl)
          (files fs) names ∧
  dirs fs ⊆ dirs fs' ∧
  (∀ d, d ∈ dirs fs' → d ∈ dirs fs ∨ under dir d) ∧
  is_dir dir fs' = true.
Proof.
  intros Hplain. revert fs.
  induction names as [|name names IH]; intros fs Hdir.
  - cbn [io_for_each]. unfold mret, io_ret. intros [= <-].
    split_and!; [done|done|by left|done].
  - cbn [io_for_each]. unfold mbind at 1, io_bind at 1.
    destruct (extract_member dir name (info name) fs) as [[[]|] fs1] eqn:H1;
      [|done].
    destruct (extract_member_inv _ _ _ _ _ Hplain Hdir H1)
      as (Hfiles1 & Hdirs1 & Hnew1).
    assert (is_dir dir fs1 = true) as Hdir1.
    { eapply is_dir_mono; [done| |done]. rewrite Hfiles1.
      destruct (endswith name "/"); [done|].
      intros p Hp. apply lookup_insert_is_Some'. by right. }
    intros (Hfiles & Hdirs & Hnew & Hdir')%(IH _ Hdir1).
    split_and!; [|by etrans| |done].
    + cbn [foldl]. by rewrite Hfiles, Hfiles1.
    + intros d [Hd|Hd]%Hnew; [|by right]. by apply Hnew1.
Qed.

(** The files the loop writes, looked up below the directory and
    elsewhere. *)
Lemma extract_fold_lookup dir (info : string → content) names fl name :
  foldl (λ fl name,
           if endswith name "/" then fl
           else <[path_join dir (sanitise name) := info name]> fl)
        fl names !! path_join dir name =
  match foldl (extract_step info) ∅ names !! name with
  | Some c => Some c
  | None => fl !! path_join dir name
  end.
Proof.
  induction names as [|n names IH] using rev_ind.
  - simpl. by rewrite lookup_empty.
  - rewrite !foldl_app. cbn [foldl]. unfold extract_step at 1.
    destruct (endswith n "/"); [done|].
    destruct (decide (sanitise n = name)) as [<-|Hne].
    + by rewrite !lookup_insert_eq.
    + rewrite !lookup_insert_ne; [done|done|].
      intros Heq. by apply path_join_inj in Heq.
Qed.

Lemma extract_fold_other dir (info : string → content) names fl p :
  ¬ under dir p →
  foldl (λ fl name,
           if endswith name "/" then fl
           else <[path_join dir (sanitise name) := info name]> fl)
        fl names !! p = fl !! p.
Proof.
  intros Hp. induction names as [|n names IH] using rev_ind; [done|].
  rewrite foldl_app. cbn [foldl]. destruct (endswith n "/"); [done|].
  rewrite lookup_insert_ne; [done|].
  intros <-. apply Hp, under_path_join_self.
Qed.

(** An extraction that went through: below the directory lie the files of
    the archive and what was there under other names; outside nothing has
    changed; the directories made lie below it. *)
Lemma extractall_inv dir members fs fs' :
  has_slash dir = false → is_dir dir fs = true →
  extractall dir members fs = (Ok (), fs') →
  (∀ name,
     files fs' !! path_join dir name =
     match archive_map members !! name with
     | Some c => Some c
     | None => files fs !! path_join dir name
     end) ∧
  (∀ p, ¬ under dir p → files fs' !! p = files fs !! p) ∧
  dirs fs ⊆ dirs fs' ∧
  (∀ d, d ∈ dirs fs' → d ∈ dirs fs ∨ under dir d) ∧
  is_dir dir fs' = true.
Proof.
  intros Hplain Hdir Hrun.
  destruct (extract_names_inv _ _ _ _ _ Hplain Hdir Hrun)
    as (Hfiles & Hdirs & Hnew & Hdir').
  split_and!; [| |done|done|done].
  - intros name. rewrite Hfiles. apply extract_fold_lookup.
  - intros p Hp. rewrite Hfiles. by apply extract_fold_other.
Qed.

Lemma extract_fold_member (info : string → content) names members name c :
  (∀ n, n ∈ names → (n, info n) ∈ members) →
  foldl (extract_step info) ∅ names !! name = Some c →
  ∃ m, m ∈ members ∧ sanitise m.1 = name ∧ m.2 = c.
Proof.
  induction names as [|n names IH] using rev_ind; intros Hinfo.
  - simpl. by rewrite lookup_empty.
  - rewrite foldl_app. cbn [foldl]. unfold extract_step at 1.
    assert (∀ n', n' ∈ names → (n', info n') ∈ members) as Hinfo'.
    { intros n' Hn'. apply Hinfo, elem_of_app. by left. }
    destruct (endswith n "/"); [by apply IH|].
    destruct (decide (sanitise n = name)) as [<-|Hne].
    + rewrite lookup_insert_eq. intros [= <-]. exists (n, info n).
      split; [|done]. apply Hinfo, elem_of_app. right. apply list_elem_of_here.
    + rewrite lookup_insert_ne by done. by apply IH.
Qed.

Lemma getinfo_member members n :
  n ∈ dict_keys members → (n, getinfo n members) ∈ members.
Proof.
  intros Hn. unfold getinfo.
  assert (∀ l : list (string * content),
            n ∈ dict_keys l → ∃ c', dict_get n l = Some c' ∧ (n, c') ∈ l)
    as Hget.
  { induction l as [|[k v] l IH]; [by intros ?%elem_of_nil|].
    unfold dict_keys. rewrite fmap_cons. cbn [dict_get fst].
    destruct (decide (k = n)) as [->|Hne].
    - intros _. exists v. split; [done|apply list_elem_of_here].
    - intros [?|Hin]%elem_of_cons; [congruence|].
      destruct (IH Hin) as (c' & Hc' & Hin'). exists c'.
      split; [done|by apply list_elem_of_further]. }
  destruct (Hget (reverse members)) as (c' & -> & Hin).
  { unfold dict_keys. rewrite fmap_reverse. by apply elem_of_reverse. }
  simpl. by apply elem_of_reverse.
Qed.

(** Every file of the archive mapping comes from a member. *)
Lemma archive_map_member members name c :
  archive_map members !! name = Some c →
  ∃ m, m ∈ members ∧ sanitise m.1 = name ∧ m.2 = c.
Proof.
  apply extract_fold_member. intros n. apply getinfo_member.
Qed.

Lemma lacks_root_config_lookup members :
  lacks_root_config members → archive_map members !! "config.json" = None.
Proof.
  intros Hlacks. destruct (archive_map members !! "config.json") eqn:Hc;
    [|done].
  apply archive_map_member in Hc as (m & Hm & Hname & _).
  unfold lacks_root_config in Hlacks. rewrite Forall_forall in Hlacks.
  by destruct (Hlacks m Hm).
Qed.

(** *** Loading a package *)

(** Whenever loading a package raises, no staging directory is left. *)
Lemma load_aivis_model_raise model_path fs e fs' :
  _load_aivis_model model_path fs = (Raise e, fs') →
  is_dir temp_aivis_extract fs' = false.
Proof.
  unfold _load_aivis_model. rewrite Path_staging.
  unfold mbind at 1, io_bind at 1.
  destruct (mkdir_exist_ok temp_aivis_extract fs) as [[[]|e0] fs1] eqn:Hmk.
  - unfold try_except.
    match goal with
    | |- context [match ?body fs1 with _ => _ end] =>
        destruct (body fs1) as [[config|e1] fs2]
    end; [done|].
    intros [= _ <-]. by apply is_dir_rmtree.
  - intros [= _ <-]. by apply mkdir_exist_ok_raise in Hmk as [-> ?].
Qed.

(** A load goes through when the staging directory can be made, the
    archive opens and extracts, and the [config.json] found afterwards
    parses. *)
Lemma load_aivis_model_ok model_path members config fs fs0 fs1 :
  mkdir_exist_ok temp_aivis_extract fs = (Ok (), fs0) →
  files fs !! model_path = Some (ZipArchive members) →
  extractall temp_aivis_extract members fs0 = (Ok (), fs1) →
  files fs1 !! path_join temp_aivis_extract "config.json" =
    Some (JsonText config) →
  _load_aivis_model model_path fs =
    (Ok (JObj [ ("type", JStr "aivis");
                ("config", config);
                ("temp_dir", JStr "temp_aivis_extract") ]), fs1).
Proof.
  intros Hmk Hzip Hextract Hconfig.
  destruct (mkdir_exist_ok_inv _ _ _ Hmk) as (_ & Hfiles & _).
  unfold _load_aivis_model. rewrite Path_staging.
  rewrite (io_bind_ok _ _ _ _ _ Hmk). unfold try_except.
  assert (zip_open model_path fs0 = (Ok members, fs0)) as Hopen.
  { unfold zip_open.
    rewrite (io_bind_ok _ _ _ _ fs0 (open_read_file _ _ _ ltac:(by rewrite Hfiles))).
    done. }
  rewrite (io_bind_ok _ _ _ _ _ Hopen).
  rewrite (io_bind_ok _ _ _ _ _ Hextract).
  rewrite joinpath_staging.
  assert (path_exists (path_join temp_aivis_extract "config.json") fs1 =
          (Ok true, fs1)) as Hexists.
  { unfold path_exists, is_file. by rewrite Hconfig, bool_decide_eq_true_2. }
  rewrite (io_bind_ok _ _ _ _ _ Hexists).
  by rewrite (io_bind_ok _ _ _ _ _ (open_read_file _ _ _ Hconfig)).
Qed.

(** What a load that went through did, step by step. *)
Lemma load_aivis_model_inv model_path model_data fs fs1 :
  _load_aivis_model model_path fs = (Ok model_data, fs1) →
  ∃ members config fs0,
    mkdir_exist_ok temp_aivis_extract fs = (Ok (), fs0) ∧
    files fs !! model_path = Some (ZipArchive members) ∧
    extractall temp_aivis_extract members fs0 = (Ok (), fs1) ∧
    files fs1 !! path_join temp_aivis_extract "config.json" =
      Some (JsonText config) ∧
    model_data = JObj [ ("type", JStr "aivis");
                        ("config", config);
                        ("temp_dir", JStr "temp_aivis_extract") ].
Proof.
  unfold _load_aivis_model. rewrite Path_staging.
  unfold mbind at 1, io_bind at 1.
  destruct (mkdir_exist_ok temp_aivis_extract fs) as [[[]|] fs0] eqn:Hmk;
    [|done].
  destruct (mkdir_exist_ok_inv _ _ _ Hmk) as (_ & Hfiles & _).
  unfold try_except.
  match goal with
  | |- context [match ?body fs0 with _ => _ end] =>
      destruct (body fs0) as [[doc|e1] fs2] eqn:Hbody
  end; [|done].
  intros [= <- <-]. revert Hbody.
  unfold mbind at 1, io_bind at 1, zip_open.
  unfold mbind at 1, io_bind at 1, open_read at 1.
  rewrite Hfiles.
  destruct (files fs !! model_path) as [c|] eqn:Hzip; [|done].
  unfold lift at 1. destruct c as [| | |members]; try done.
  unfold mbind at 1, io_bind at 1.
  destruct (extractall temp_aivis_extract members fs0) as [[[]|] fs3] eqn:Hex;
    [|done].
  rewrite joinpath_staging.
  unfold mbind at 1, io_bind at 1, path_exists at 1.
  destruct (is_file _ fs3 || is_dir _ fs3); [|done].
  unfold mbind at 1, io_bind at 1, open_read at 1.
  destruct (files fs3 !! path_join temp_aivis_extract "config.json")
    as [text|] eqn:Hcfg; [|done].
  unfold mbind at 1, io_bind at 1, lift at 1.
  destruct text as [config| | |]; try done.
  cbn [json_load]. intros [= <- <-].
  by exists members, config, fs0.
Qed.
End staging.

(** C6: the part of the claim that holds, and what the code does instead.
    For a path ending in [.aivis], whenever [load_model] raises, no staging
    directory exists afterwards.  But the staging directory has a fixed
    name and is not emptied before use: when it still holds a
    [config.json], an archive without [config.json] that extracts into it
    is not refused.  [load_model] succeeds, returns the configuration that
    was lying there, and keeps the directory. *)
Theorem stale_config_answers_for_missing_config model_path fs :
  (∃ stem, model_path = stem +:+ ".aivis") →
  (∀ e fs',
     load_model model_path fs = (Raise e, fs') →
     is_dir temp_aivis_extract fs' = false) ∧
  (∀ members stale fs1,
     files fs !! model_path = Some (ZipArchive members) →
     lacks_root_config members →
     files fs !! path_join temp_aivis_extract "config.json" =
       Some (JsonText stale) →
     extractall temp_aivis_extract members fs = (Ok (), fs1) →
     load_model model_path fs =
       (Ok (JObj [ ("type", JStr "aivis");
                   ("config", stale);
                   ("temp_dir", JStr "temp_aivis_extract") ]), fs1) ∧
     is_dir temp_aivis_extract fs1 = true).
Proof.
  intros Haivis%endswith_spec. unfold load_model. rewrite Haivis. split.
  - apply load_aivis_model_raise.
  - intros members stale fs1 Hzip Hlacks Hstale Hextract.
    assert (is_dir temp_aivis_extract fs = true) as Hdir.
    { apply is_dir_true. right; right.
      eexists _, _. split; [done|apply under_path_join_self]. }
    assert (mkdir_exist_ok temp_aivis_extract fs = (Ok (), fs)) as Hmk.
    { unfold mkdir_exist_ok. by rewrite Hdir. }
    destruct (extractall_inv temp_aivis_extract _ _ _ eq_refl Hdir Hextract)
      as (Hmembers & _ & _ & _ & Hdir1).
    split; [|done].
    eapply load_aivis_model_ok; [done|done|done|].
    by rewrite Hmembers, lacks_root_config_lookup, Hstale.
Qed.

Lemma stale_config_answers_for_missing_config_witness :
  let fs :=
    Filesystem
      {[ "first.aivis" :=
           ZipArchive [ ("config.json", JsonText (JObj []));
                        ("model.bin", Blob "first weights") ];
         "second.aivis" := ZipArchive [("model.bin", Blob "second weights")] ]}
      ∅ in
  let failed := process_file "first.aivis" "missing/first_styled.aivis" fs in
  failed.1 = Raise (FileNotFoundError "No such file or directory") ∧
  lacks_root_config [("model.bin", Blob "second weights")] ∧
  (load_model "second.aivis" failed.2).1 =
    Ok (JObj [ ("type", JStr "aivis");
               ("config", JObj [("styles", JObj (add_entries styles []))]);
               ("temp_dir", JStr "temp_aivis_extract") ]).
Proof.
  intros fs failed.
  assert (lacks_root_config [("model.bin", Blob "second weights")]) as Hlacks.
  { apply (bool_decide_unpack _). by vm_compute. }
  split_and!; [by vm_compute|done|].
  destruct (stale_config_answers_for_missing_config "second.aivis" failed.2)
    as [_ Hstale]; [by exists "second"|].
  destruct (Hstale [("model.bin", Blob "second weights")]
              (JObj [("styles", JObj (add_entries styles []))])
              (extractall temp_aivis_extract
                 [("model.bin", Blob "second weights")] failed.2).2)
    as [Hload _].
  - by vm_compute.
  - done.
  - by vm_compute.
  - by vm_compute.
  - by rewrite Hload.
Defined.

(** ** Saving a package *)

Lemma nothing_removed_refl fs : nothing_removed fs fs.
Proof. by split. Qed.

Lemma nothing_removed_insert fs fs' p c :
  nothing_removed fs fs' →
  nothing_removed fs (Filesystem (<[p := c]> (files fs')) (dirs fs')).
Proof.
  intros [Hdirs Hfiles]. split; [done|]. simpl. intros q Hq.
  apply lookup_insert_is_Some'. right. by apply Hfiles.
Qed.

Lemma open_write_nothing_removed p fs r fs' :
  open_write p fs = (r, fs') → nothing_removed fs fs'.
Proof.
  unfold open_write. destruct (is_dir p fs); [by intros [= _ <-]|].
  destruct (is_dir (dirname p) fs); intros [= _ <-]; [|done].
  apply nothing_removed_insert, nothing_removed_refl.
Qed.

Lemma json_dump_nothing_removed obj p fs r fs' :
  json_dump obj p fs = (r, fs') → nothing_removed fs fs'.
Proof.
  unfold json_dump. destruct (encodable obj); intros [= _ <-];
    apply nothing_removed_insert, nothing_removed_refl.
Qed.

Lemma nothing_removed_trans fs1 fs2 fs3 :
  nothing_removed fs1 fs2 → nothing_removed fs2 fs3 → nothing_removed fs1 fs3.
Proof.
  intros [Hd1 Hf1] [Hd2 Hf2]. split; [congruence|]. intros p Hp. auto.
Qed.

Lemma nothing_removed_is_dir fs fs' dir :
  nothing_removed fs fs' → is_dir dir fs = true → is_dir dir fs' = true.
Proof.
  intros [Hdirs Hfiles]. unfold is_dir.
  rewrite !bool_decide_eq_true, Hdirs.
  intros [?|[?|(p & c & Hp & Hunder)]]; [by left|by right; left|].
  destruct (Hfiles p (mk_is_Some _ _ Hp)) as [c' Hp'].
  right; right. by exists p, c'.
Qed.

Lemma save_aivis_model_raise model_data output_path fs e fs' :
  _save_aivis_model model_data output_path fs = (Raise e, fs') →
  nothing_removed fs fs'.
Proof.
  unfold _save_aivis_model. unfold mbind at 1, io_bind at 1, lift at 1.
  destruct (_ ≫= as_path) as [temp_dir|e0]; [|by intros [= _ <-]].
  unfold mbind at 1, io_bind at 1.
  destruct (open_write _ fs) as [[[]|e1] fs1] eqn:Hcfg;
    [|intros [= _ <-]; by eapply open_write_nothing_removed].
  apply open_write_nothing_removed in Hcfg.
  unfold mbind at 1, io_bind at 1, lift at 1.
  destruct (py_getitem "config" model_data) as [config|e2];
    [|by intros [= _ <-]].
  unfold mbind at 1, io_bind at 1.
  destruct (json_dump config _ fs1) as [[[]|e3] fs2] eqn:Hdump;
    apply json_dump_nothing_removed in Hdump;
    [|intros [= _ <-]; by eapply nothing_removed_trans].
  unfold mbind at 1, io_bind at 1.
  destruct (open_write output_path fs2) as [[[]|e4] fs3] eqn:Hout; [done|].
  intros [= _ <-]. apply open_write_nothing_removed in Hout.
  eapply nothing_removed_trans; [done|]. by eapply nothing_removed_trans.
Qed.

(** C5: what the code does instead.  A [save_model] that raises has
    removed nothing: every directory that existed before the call exists
    after it, the staging directory of a packaged document included. *)
Theorem failed_save_keeps_staging_dir model_data output_path fs e fs' dir :
  save_model model_data output_path fs = (Raise e, fs') →
  is_dir dir fs = true →
  is_dir dir fs' = true.
Proof.
  intros Hsave. apply nothing_removed_is_dir. revert Hsave.
  unfold save_model. unfold mbind at 1, io_bind at 1, lift at 1.
  destruct (is_aivis model_data) as [[]|e0].
  - apply save_aivis_model_raise.
  - unfold mbind, io_bind.
    destruct (open_write output_path fs) as [[[]|e1] fs1] eqn:Hout;
      apply open_write_nothing_removed in Hout; [|by intros [= _ <-]].
    destruct (json_dump model_data output_path fs1) as [r fs2] eqn:Hdump.
    apply json_dump_nothing_removed in Hdump.
    destruct r as [[]|e2]; [done|].
    intros [= _ <-]. by eapply nothing_removed_trans.
  - intros [= _ <-]. apply nothing_removed_refl.
Qed.

Lemma failed_save_keeps_staging_dir_witness :
  let fs :=
    Filesystem
      {["voice.aivis" :=
          ZipArchive [ ("config.json", JsonText (JObj []));
                       ("model.bin", Blob "weights") ]]} ∅ in
  let loaded := load_model "voice.aivis" fs in
  let saved :=
    save_model
      (JObj [ ("type", JStr "aivis"); ("config", JObj []);
              ("temp_dir", JStr "temp_aivis_extract") ])
      "missing/voice_styled.aivis" loaded.2 in
  loaded.1 = Ok (JObj [ ("type", JStr "aivis"); ("config", JObj []);
                        ("temp_dir", JStr "temp_aivis_extract") ]) ∧
  saved.1 = Raise (FileNotFoundError "No such file or directory") ∧
  is_dir temp_aivis_extract saved.2 = true.
Proof.
  intros fs loaded saved. split_and!.
  - by vm_compute.
  - by vm_compute.
  - apply (failed_save_keeps_staging_dir
             (JObj [ ("type", JStr "aivis"); ("config", JObj []);
                     ("temp_dir", JStr "temp_aivis_extract") ])
             "missing/voice_styled.aivis" loaded.2
             (FileNotFoundError "No such file or directory") saved.2).
    + by vm_compute.
    + by vm_compute.
Defined.

(** * Further properties of the transform *)

(** ** When the merge raises *)

Lemma single_char_lacks_styles c :
  str_contains "styles" (String c EmptyString) = false.
Proof. by destruct c as [[] [] [] [] [] [] [] []]. Qed.

Lemma add_speaker_styles_eq speaker :
  add_speaker_styles speaker =
  if speaker_passes speaker then Ok (entry_after speaker) else Raise TypeError.
Proof.
  destruct speaker as [| | | |s|items|fields]; try done.
  - unfold add_speaker_styles. simpl. by destruct (str_contains "styles" s).
  - unfold add_speaker_styles. simpl.
    by destruct (existsb (json_is_str "styles") items).
  - apply add_speaker_styles_obj.
Qed.

Lemma traverse_speakers entries :
  traverse add_speaker_styles entries =
  if forallb speaker_passes entries
  then Ok (entry_after <$> entries) else Raise TypeError.
Proof.
  induction entries as [|speaker entries IH]; [done|].
  cbn [traverse forallb]. rewrite add_speaker_styles_eq, IH.
  destruct (speaker_passes speaker); [|done].
  by destruct (forallb speaker_passes entries).
Qed.

Lemma forallb_speaker_passes_keys (keys : list string) :
  forallb speaker_passes (JStr <$> keys) =
  forallb (str_contains "styles") keys.
Proof.
  induction keys as [|k keys IH]; [done|].
  rewrite fmap_cons. cbn [forallb speaker_passes]. by rewrite IH.
Qed.

Lemma forallb_speaker_passes_chars s :
  forallb speaker_passes (str_chars s) = bool_decide (s = "").
Proof.
  destruct s as [|c s]; [done|].
  cbn [str_chars forallb speaker_passes].
  by rewrite single_char_lacks_styles.
Qed.

Lemma add_catalog_outcome config :
  match config with
  | JObj d =>
      match dict_get "styles" d with
      | None | Some (JObj _) =>
          add_catalog config =
          Ok (JObj (dict_set "styles"
                      (JObj (add_entries styles (styles_of config)))
                      (with_styles d)))
      | Some _ => add_catalog config = Raise TypeError
      end
  | _ => add_catalog config = Raise TypeError
  end.
Proof.
  destruct config as [| | | |s|items|d]; try done.
  - unfold add_catalog. simpl. by destruct (str_contains "styles" s).
  - unfold add_catalog. simpl.
    by destruct (existsb (json_is_str "styles") items).
  - simpl. destruct (dict_get "styles" d) as [old|] eqn:Hd.
    + destruct old; try (by eapply add_catalog_not_obj).
      apply add_catalog_obj. by rewrite Hd.
    + apply add_catalog_obj. by rewrite Hd.
Qed.

(** The merge succeeds exactly on the mergeable configurations, and
    raises nothing but [TypeError]. *)
Lemma merge_config_outcome config :
  if mergeable config
  then ∃ config', merge_config config = Ok config'
  else merge_config config = Raise TypeError.
Proof.
  pose proof (add_catalog_outcome config) as Hcat.
  destruct config as [| | | | | |d]; simpl; try (unfold merge_config; by rewrite Hcat).
  unfold merge_config.
  assert (∀ table,
    add_catalog (JObj d) =
      Ok (JObj (dict_set "styles" (JObj table) (with_styles d))) →
    if match dict_get "speakers" d with
       | None => true
       | Some (JArr entries) => forallb speaker_passes entries
       | Some (JObj fields) =>
           forallb (str_contains "styles") (dict_keys fields)
       | Some (JStr s) => bool_decide (s = "")
       | Some _ => false
       end
    then ∃ config', add_catalog (JObj d) ≫= add_to_speakers = Ok config'
    else add_catalog (JObj d) ≫= add_to_speakers = Raise TypeError) as Hsp.
  { intros table ->. cbn [mbind result_bind].
    rewrite add_to_speakers_obj, dict_get_set_ne, with_styles_other by done.
    destruct (dict_get "speakers" d) as [[| | | |s|entries|fields]|];
      try done; [| | |eauto].
    - cbn [py_iter mbind result_bind]. rewrite traverse_speakers.
      rewrite forallb_speaker_passes_chars.
      destruct (bool_decide (s = "")); simpl; eauto.
    - cbn [py_iter mbind result_bind]. rewrite traverse_speakers.
      destruct (forallb speaker_passes entries); simpl; eauto.
    - cbn [py_iter mbind result_bind]. rewrite traverse_speakers.
      rewrite forallb_speaker_passes_keys.
      destruct (forallb _ (dict_keys fields)); simpl; eauto. }
  destruct (dict_get "styles" d) as [[| | | | | |table]|];
    try (by rewrite Hcat); simpl; by eapply Hsp.
Qed.

(** X1.  [add_styles_to_model] raises in three ways only: [AttributeError]
    when the document is not an object, [KeyError] on ["config"] when it is
    tagged ["aivis"] without that key, and [TypeError] when the
    configuration is not mergeable (it is not an object, its [styles] is
    not a mapping, or its [speakers] holds something the loop cannot get
    past).  On every other document it succeeds. *)
Theorem add_styles_to_model_outcome model_data :
  match config_of model_data with
  | Raise e =>
      add_styles_to_model model_data = Raise e ∧
      (e = AttributeError ∨ e = KeyError "config")
  | Ok config =>
      if mergeable config
      then ∃ model_data', add_styles_to_model model_data = Ok model_data'
      else add_styles_to_model model_data = Raise TypeError
  end.
Proof.
  destruct (config_of model_data) as [config|e] eqn:Hcfg.
  - pose proof (merge_config_outcome config) as Hm.
    destruct (mergeable config).
    + destruct Hm as [config' Hm].
      destruct (add_styles_to_model_ok _ _ _ Hcfg Hm) as (model_data' & ? & _).
      eauto.
    + unfold add_styles_to_model. rewrite Hcfg.
      unfold config_of in Hcfg.
      destruct (is_aivis model_data); [|done].
      cbn [mbind result_bind]. by rewrite Hm.
  - unfold add_styles_to_model. rewrite Hcfg.
    unfold config_of in Hcfg.
    destruct model_data as [| | | | | |d]; try (injection Hcfg as <-; eauto).
    rewrite is_aivis_obj in *. cbn [mbind result_bind] in *.
    destruct (match dict_get "type" d with
              | Some v => json_is_str "aivis" v
              | None => false
              end); [|done].
    simpl in Hcfg. destruct (dict_get "config" d); [done|].
    injection Hcfg as <-. eauto.
Qed.

(** ** What the merge leaves in place *)

Lemma dict_keys_set {V : Type} k (v : V) (d : list (string * V)) :
  dict_keys (dict_set k v d) =
  if dict_contains k d then dict_keys d else dict_keys d ++ [k].
Proof.
  unfold dict_keys, dict_contains.
  induction d as [|[k0 v0] d IH]; [done|]. simpl.
  destruct (decide (k0 = k)) as [->|Hne]; [done|].
  rewrite fmap_cons, IH. by destruct (dict_get k d).
Qed.

Lemma dict_keys_get {V : Type} k (d : list (string * V)) :
  k ∈ dict_keys d ↔ is_Some (dict_get k d).
Proof.
  unfold dict_keys. induction d as [|[k0 v0] d IH]; simpl.
  - rewrite elem_of_nil, is_Some_alt. done.
  - rewrite elem_of_cons, IH. destruct (decide (k0 = k)) as [->|Hne].
    + split; [by eexists|by left].
    + split; [by intros [->|?]|by right].
Qed.

Lemma filter_iff_on {A : Type} (P1 P2 : A → Prop)
    `{!∀ x, Decision (P1 x), !∀ x, Decision (P2 x)} (l : list A) :
  (∀ x, x ∈ l → P1 x ↔ P2 x) → filter P1 l = filter P2 l.
Proof.
  induction l as [|a l IH]; intros Hiff; [done|].
  rewrite !filter_cons, IH by (intros; apply Hiff; by right).
  destruct (decide (P1 a)) as [Ha|Ha]; destruct (decide (P2 a)) as [Hb|Hb];
    try done.
  - destruct Hb. apply Hiff; [left|done].
  - destruct Ha. apply Hiff; [left|done].
Qed.

(** The identifiers of the table after the catalog loop: the ones it had,
    in their order, then the catalog identifiers it lacked, in catalog
    order. *)
Lemma add_entries_keys items table :
  NoDup items.*1 →
  dict_keys (add_entries items table) =
  dict_keys table ++ filter (λ id, id ∉ dict_keys table) items.*1.
Proof.
  revert table. induction items as [|[id name] items IH]; intros table Hnd.
  - by rewrite app_nil_r.
  - rewrite fmap_cons in Hnd. apply NoDup_cons in Hnd as [Hfresh Hnd].
    rewrite add_entries_cons, IH, dict_keys_set, fmap_cons, filter_cons by done.
    cbn [fst].
    destruct (dict_contains id table) eqn:Hid.
    + apply dict_contains_true, dict_keys_get in Hid.
      by rewrite decide_False by (by intros ?).
    + apply dict_contains_false in Hid.
      assert (id ∉ dict_keys table) as Hout.
      { rewrite dict_keys_get, Hid. by intros [? ?]. }
      rewrite decide_True by done. rewrite <- app_assoc. simpl.
      do 2 f_equal. apply filter_iff_on. intros id' Hin.
      rewrite elem_of_app, list_elem_of_singleton.
      split; [tauto|]. intros Hnot [Hin'| ->]; done.
Qed.

(** X2.  A successful merge keeps the order of what was there.  At the top
    level the keys of the configuration stay in place, with ["styles"]
    appended when it was absent; inside [styles] the identifiers already
    present stay in place and the missing catalog identifiers follow in
    catalog order. *)
Theorem merge_config_key_order d config' :
  merge_config (JObj d) = Ok config' →
  ∃ d' table',
    config' = JObj d' ∧
    dict_keys d' =
      dict_keys d ++ (if dict_contains "styles" d then [] else ["styles"]) ∧
    dict_get "styles" d' = Some (JObj table') ∧
    dict_keys table' =
      dict_keys (styles_of (JObj d)) ++
      filter (λ id, id ∉ dict_keys (styles_of (JObj d)))
             ["normal"; "standard"; "high_tension"; "calm"; "cheerful";
              "emotional"].
Proof.
  intros Hm.
  destruct (merge_config_inv _ _ Hm)
    as (? & d' & [= <-] & -> & _ & Hst & _ & Hsp).
  exists d', (add_entries styles (styles_of (JObj d))).
  split_and!; [done| |done|by apply add_entries_keys, styles_NoDup].
  set (d1 := dict_set "styles" _ (with_styles d)) in Hsp.
  assert (dict_get "speakers" d1 = dict_get "speakers" d) as Hspk1.
  { unfold d1. by rewrite dict_get_set_ne, with_styles_other. }
  assert (dict_keys d1 =
          dict_keys d ++ (if dict_contains "styles" d then [] else ["styles"]))
    as Hkeys.
  { unfold d1. rewrite dict_keys_set. unfold with_styles.
    destruct (dict_contains "styles" d) eqn:Hd.
    - by rewrite Hd, app_nil_r.
    - by rewrite dict_contains_set_eq, dict_keys_set, Hd. }
  rewrite add_to_speakers_obj, Hspk1 in Hsp.
  destruct (dict_get "speakers" d) as [speakers|] eqn:Hspk.
  - apply bind_Ok in Hsp as (entries & _ & (entries' & _ & [= Hd'])%bind_Ok).
    destruct speakers; injection Hd' as <-; try done.
    rewrite dict_keys_set.
    by rewrite (proj2 (dict_contains_true _ _) (mk_is_Some _ _ Hspk1)).
  - by injection Hsp as <-.
Qed.

Lemma merge_config_key_order_witness :
  ∃ d',
    merge_config (JObj [("name", JStr "model");
                        ("styles", JObj [("calm", JNull); ("whisper", JNull)]);
                        ("version", JInt 2)]) = Ok (JObj d') ∧
    dict_keys d' = ["name"; "styles"; "version"].
Proof.
  destruct (merge_config_key_order
              [("name", JStr "model");
               ("styles", JObj [("calm", JNull); ("whisper", JNull)]);
               ("version", JInt 2)] _ eq_refl)
    as (d' & table' & Heq & Hkeys & _).
  exists d'. split; [by rewrite <- Heq|done].
Defined.

Lemma add_styles_to_model_tagged_inv (d : list (string * json)) model_data' :
  dict_get "type" d = Some (JStr "aivis") →
  add_styles_to_model (JObj d) = Ok model_data' →
  ∃ config config',
    dict_get "config" d = Some config ∧
    merge_config config = Ok config' ∧
    model_data' = JObj (dict_set "config" config' d).
Proof.
  intros Htype. unfold add_styles_to_model, config_of.
  rewrite is_aivis_obj, Htype. cbn [json_is_str mbind result_bind].
  rewrite bool_decide_eq_true_2 by done. simpl.
  destruct (dict_get "config" d) as [config|] eqn:Hcfg; [|done].
  simpl. destruct (merge_config config) as [config'|] eqn:Hm; [|done].
  simpl. intros [= <-]. by exists config, config'.
Qed.

(** X3.  On a document tagged ["aivis"], [add_styles_to_model] replaces the
    value under ["config"] by the merged configuration and touches nothing
    else: the keys of the document and their order stay, and so do the
    values under the other keys, ["type"] and ["temp_dir"] among them. *)
Theorem packaged_document_frame d model_data' :
  dict_get "type" d = Some (JStr "aivis") →
  add_styles_to_model (JObj d) = Ok model_data' →
  ∃ config config',
    dict_get "config" d = Some config ∧
    merge_config config = Ok config' ∧
    model_data' = JObj (dict_set "config" config' d) ∧
    dict_keys (dict_set "config" config' d) = dict_keys d ∧
    ∀ k, k ≠ "config" →
         dict_get k (dict_set "config" config' d) = dict_get k d.
Proof.
  intros Htype Hadd.
  destruct (add_styles_to_model_tagged_inv _ _ Htype Hadd)
    as (config & config' & Hcfg & Hm & ->).
  exists config, config'. split_and!; try done.
  - rewrite dict_keys_set.
    by rewrite (proj2 (dict_contains_true _ _) (mk_is_Some _ _ Hcfg)).
  - intros k Hk. by apply dict_get_set_ne.
Qed.

Lemma packaged_document_frame_witness :
  add_styles_to_model
    (JObj [("type", JStr "aivis"); ("config", JObj []);
           ("temp_dir", JStr "temp_aivis_extract")]) =
  Ok (JObj (dict_set "config" (JObj [("styles", JObj (add_entries styles []))])
              [("type", JStr "aivis"); ("config", JObj []);
               ("temp_dir", JStr "temp_aivis_extract")])).
Proof.
  destruct (packaged_document_frame
              [("type", JStr "aivis"); ("config", JObj []);
               ("temp_dir", JStr "temp_aivis_extract")] _ eq_refl eq_refl)
    as (config & config' & Hcfg & Hm & Heq & _).
  injection Hcfg as <-. injection Hm as <-. done.
Defined.

(** ** Packages: staging and the archive written back *)

Section packages.
Implicit Types (fs : filesystem) (members : list (string * content)).
Implicit Types (fl : gmap string content).

Lemma Path_nonempty s : Path s ≠ "".
Proof. unfold Path. cbv zeta. by case_bool_decide. Qed.

(** A file is listed below [dir] under a name exactly when some file has
    that name relative to [dir]. *)
Lemma elem_of_staged_files dir fs name c :
  (name, c) ∈ staged_files dir fs ↔
  ∃ p, files fs !! p = Some c ∧ relative_to dir p = Some name.
Proof.
  unfold staged_files. rewrite list_elem_of_omap. split.
  - intros ([p c'] & Hin & Hrel). simpl in Hrel.
    destruct (relative_to dir p) as [name'|] eqn:Hp; [|done].
    injection Hrel as -> ->. exists p. split; [|done].
    by apply elem_of_map_to_list in Hin.
  - intros (p & Hfile & Hrel). exists (p, c). split.
    + by apply elem_of_map_to_list.
    + simpl. by rewrite Hrel.
Qed.

Lemma staged_files_NoDup dir fs : NoDup (staged_files dir fs).*1.
Proof.
  unfold staged_files.
  pose proof (NoDup_fst_map_to_list (files fs)) as Hnd.
  induction (map_to_list (files fs)) as [|[p c] l IH]; [constructor|].
  rewrite fmap_cons in Hnd. apply NoDup_cons in Hnd as [Hfresh Hnd].
  cbn [omap list_omap]. simpl.
  destruct (relative_to dir p) as [name|] eqn:Hp; simpl; [|by apply IH].
  apply NoDup_cons. split; [|by apply IH].
  intros ([name' c'] & -> & Hin)%list_elem_of_fmap. simpl in *.
  apply list_elem_of_omap in Hin as ([p' c''] & Hin & Hrel). simpl in Hrel.
  destruct (relative_to dir p') as [name''|] eqn:Hp'; [|done].
  injection Hrel as -> ->.
  apply relative_to_Some in Hp as ->. apply relative_to_Some in Hp' as ->.
  apply Hfresh. apply list_elem_of_fmap. by exists (joinpath dir name', c').
Qed.

Lemma staged_files_lookup dir fs p name :
  relative_to dir p = Some name →
  (list_to_map (staged_files dir fs) : gmap string content) !! name =
  files fs !! p.
Proof.
  intros Hp. apply option_eq. intros c.
  rewrite <- elem_of_list_to_map by apply staged_files_NoDup.
  rewrite elem_of_staged_files. split.
  - intros (p' & Hfile & Hp').
    apply relative_to_Some in Hp as ->. by apply relative_to_Some in Hp' as ->.
  - intros Hfile. by exists p.
Qed.

Lemma staged_files_name dir fs name :
  is_Some ((list_to_map (staged_files dir fs) : gmap string content) !! name) →
  ∃ p, relative_to dir p = Some name.
Proof.
  intros [c Hc].
  apply elem_of_list_to_map in Hc; [|apply staged_files_NoDup].
  apply elem_of_staged_files in Hc as (p & _ & Hp). by exists p.
Qed.

Lemma rmtree_lookup dir fs p :
  files (rmtree dir fs).2 !! p =
  match relative_to dir p with
  | Some _ => None
  | None => files fs !! p
  end.
Proof.
  simpl. destruct (relative_to dir p) as [name|] eqn:Hrel.
  - apply map_lookup_filter_None. right. intros c _ Hnone. simpl in Hnone.
    congruence.
  - destruct (files fs !! p) as [c|] eqn:Hp.
    + by apply map_lookup_filter_Some.
    + apply map_lookup_filter_None. by left.
Qed.
End packages.

(** What a successful save of a tagged document did, step by step. *)
Lemma save_aivis_model_run model_data output_path fs fs' :
  is_aivis model_data = Ok true →
  save_model model_data output_path fs = (Ok (), fs') →
  ∃ s config fs3,
    py_getitem "temp_dir" model_data = Ok (JStr s) ∧
    py_getitem "config" model_data = Ok config ∧
    encodable config = true ∧
    files fs3 =
      <[output_path := Blob ""]>
        (<[joinpath (Path s) "config.json" := JsonText config]> (files fs)) ∧
    dirs fs3 = dirs fs ∧
    fs' =
      (rmtree (Path s)
         (Filesystem
            (<[output_path := ZipArchive (staged_files (Path s) fs3)]>
               (files fs3))
            (dirs fs3))).2.
Proof.
  intros Htag. unfold save_model, lift. unfold mbind at 1, io_bind at 1.
  rewrite Htag. unfold _save_aivis_model, lift.
  unfold mbind at 1, io_bind at 1.
  destruct (py_getitem "temp_dir" model_data) as [v|] eqn:Htemp; [|done].
  cbn [mbind result_bind].
  destruct v as [| | | |s| |]; try done. cbn [as_path].
  unfold mbind at 1, io_bind at 1.
  destruct (open_write (joinpath (Path s) "config.json") fs)
    as [[[]|] fs1] eqn:Hcfg; [|done].
  unfold mbind at 1, io_bind at 1.
  destruct (py_getitem "config" model_data) as [config|] eqn:Hconfig; [|done].
  unfold mbind at 1, io_bind at 1, json_dump at 1.
  destruct (encodable config) eqn:Henc; [|done].
  unfold mbind at 1, io_bind at 1.
  destruct (open_write output_path _) as [[[]|] fs3] eqn:Hout; [|done].
  unfold mbind at 1, io_bind at 1, rglob_files at 1.
  unfold mbind at 1, io_bind at 1, write_file at 1.
  fold (staged_files (Path s) fs3).
  intros Hfinal. exists s, config, fs3.
  assert (fs1 =
          Filesystem (<[joinpath (Path s) "config.json" := Blob ""]> (files fs))
                     (dirs fs)) as ->.
  { unfold open_write in Hcfg. repeat case_match; by simplify_eq. }
  assert (fs3 =
          Filesystem
            (<[output_path := Blob ""]>
               (<[joinpath (Path s) "config.json" := JsonText config]>
                  (files fs)))
            (dirs fs)) as ->.
  { unfold open_write in Hout. cbn [files dirs] in Hout.
    rewrite insert_insert_eq in Hout. repeat case_match; by simplify_eq. }
  split_and!; [done|done|done|done|done|by injection Hfinal as <-].
Qed.



(** X5.  When [load_model] succeeds on a path ending in [.aivis], the file
    there is an archive, and the document returned is tagged ["aivis"],
    names the staging path, and carries the configuration that
    [config.json] in the staging directory holds afterwards.  Below that
    directory lie the files of the archive, each at the path its name is
    extracted to (of two written to one path, the later), together with
    what was there before under other names; no file outside it has
    changed, and the directories made are the staging directory and
    directories below it. *)
Theorem load_package_ok model_path model_data fs fs' :
  (∃ stem, model_path = stem +:+ ".aivis") →
  load_model model_path fs = (Ok model_data, fs') →
  ∃ members config,
    files fs !! model_path = Some (ZipArchive members) ∧
    model_data = JObj [ ("type", JStr "aivis");
                        ("config", config);
                        ("temp_dir", JStr "temp_aivis_extract") ] ∧
    files fs' !! path_join temp_aivis_extract "config.json" =
      Some (JsonText config) ∧
    is_dir temp_aivis_extract fs' = true ∧
    (∀ name,
       files fs' !! path_join temp_aivis_extract name =
       match archive_map members !! name with
       | Some c => Some c
       | None => files fs !! path_join temp_aivis_extract name
       end) ∧
    (∀ p, ¬ under temp_aivis_extract p → files fs' !! p = files fs !! p) ∧
    dirs fs ⊆ dirs fs' ∧
    (∀ d, d ∈ dirs fs' →
          d ∈ dirs fs ∨ d = temp_aivis_extract ∨ under temp_aivis_extract d).
Proof.
  intros Haivis%endswith_spec. unfold load_model. rewrite Haivis.
  intros (members & config & fs0 & Hmk & Hzip & Hextract & Hconfig & ->)
    %load_aivis_model_inv.
  destruct (mkdir_exist_ok_inv _ _ _ Hmk)
    as (Hdir0 & Hfiles0 & Hdirs0 & Hdirs0' & _).
  destruct (extractall_inv temp_aivis_extract _ _ _ eq_refl Hdir0 Hextract)
    as (Hmembers & Hother & Hdirs & Hnew & Hdir).
  exists members, config. rewrite <- Hfiles0.
  split_and!; [by rewrite Hfiles0|done|done|done|done|done|by etrans|].
  intros d [Hd|Hd]%Hnew; [|by right; right].
  apply Hdirs0', elem_of_union in Hd as [Hd%elem_of_singleton|Hd];
    [by right; left|by left].
Qed.

Lemma load_package_ok_witness :
  let fs :=
    Filesystem
      {["voice.aivis" :=
          ZipArchive [ ("config.json", JsonText (JObj []));
                       ("assets/", Blob "");
                       ("./assets/model.bin", Blob "weights") ]]} ∅ in
  let loaded := load_model "voice.aivis" fs in
  loaded.1 = Ok (JObj [ ("type", JStr "aivis"); ("config", JObj []);
                        ("temp_dir", JStr "temp_aivis_extract") ]) ∧
  files loaded.2 !! "temp_aivis_extract/assets/model.bin" =
    Some (Blob "weights").
Proof.
  intros fs loaded.
  assert (loaded =
          (Ok (JObj [ ("type", JStr "aivis"); ("config", JObj []);
                      ("temp_dir", JStr "temp_aivis_extract") ]), loaded.2))
    as Hloaded by by vm_compute.
  split; [by rewrite Hloaded|].
  destruct (load_package_ok "voice.aivis"
              (JObj [ ("type", JStr "aivis"); ("config", JObj []);
                      ("temp_dir", JStr "temp_aivis_extract") ])
              fs loaded.2) as
    (members & config & Hzip & _ & _ & _ & Hmembers & _);
    [by exists "voice"|exact Hloaded|].
  assert (members = [ ("config.json", JsonText (JObj []));
                      ("assets/", Blob "");
                      ("./assets/model.bin", Blob "weights") ]) as ->.
  { vm_compute in Hzip. by injection Hzip as <-. }
  change "temp_aivis_extract/assets/model.bin"
    with (path_join temp_aivis_extract "assets/model.bin").
  rewrite (Hmembers "assets/model.bin"). by vm_compute.
Defined.

(** ** The round trip of a package *)

Section fresh.
Context (dir : string) (all : list string).
Hypothesis Hdir_plain : has_slash dir = false.
Hypothesis Hplain : ∀ n, n ∈ all → plain_name n = true.
Hypothesis Hnest : ∀ n n', n ∈ all → n' ∈ all → ¬ under n n'.
Implicit Types (fs : filesystem).

Lemma under_irrefl p : ¬ under p p.
Proof.
  induction p as [|c p IH].
  - by intros ?%elem_of_ancestors%elem_of_nil.
  - by intros ?%under_cons.
Qed.

Lemma path_join_nonempty name : path_join dir name ≠ "".
Proof.
  intros Heq. pose proof (has_slash_app dir name) as Hs.
  unfold path_join in Heq. by rewrite Heq in Hs.
Qed.

(** One member of a well-named archive extracts, and keeps the staging
    directory as it should be. *)
Lemma extract_member_fresh n data fs :
  n ∈ all → extracted_only dir all fs →
  ∃ fs1,
    extract_member dir n data fs = (Ok (), fs1) ∧
    extracted_only dir all fs1.
Proof.
  intros Hn (Hdir & Hnofile & Hfiles & Hdirs).
  pose proof (Hplain n Hn) as Hname. unfold plain_name in Hname.
  apply andb_prop in Hname as [[Hne Hsan]%andb_prop Hnodir%negb_true_iff].
  apply bool_decide_eq_true in Hsan.
  set (target := path_join dir n).
  assert (has_slash target = true) as Hslash by apply has_slash_app.
  assert (under dir target) as Htarget by apply under_path_join_self.
  assert (∀ n', n' ∈ all → ¬ under target (path_join dir n')) as Hbelow.
  { intros n' Hn' Hu%under_path_join. by apply (Hnest n n'). }
  (* no regular file on the way to the target *)
  assert (∀ q, under q target → is_file q fs = false) as Hway.
  { intros q Hq. pose proof Hq as Hq0.
    apply under_path_join_cases in Hq as [->|[Hq|Hq]]; [done| |].
    - destruct (is_file q fs) eqn:Hfile; [|done].
      apply bool_decide_eq_true in Hfile.
      destruct (Hfiles q Hq Hfile) as (n' & Hn' & ->).
      apply under_path_join in Hq0. by destruct (Hnest n' n).
    - by rewrite (under_has_slash _ _ Hq) in Hdir_plain. }
  (* the directories above the target *)
  assert (∃ fs0,
    (if bool_decide (dirname target ≠ "") &&
        negb (is_file (dirname target) fs || is_dir (dirname target) fs)
     then makedirs (dirname target) else mret ()) fs = (Ok (), fs0) ∧
    files fs0 = files fs ∧ dirs fs ⊆ dirs fs0 ∧
    (∀ d, d ∈ dirs fs0 → d ∈ dirs fs ∨ under d target) ∧
    is_dir (dirname target) fs0 = true) as (fs0 & Hmk & Hfiles0 & Hdirs0 & Hnew0 & Hupper).
  { pose proof (under_dirname _ Hslash) as Hup.
    destruct (bool_decide (dirname target ≠ "")) eqn:Hempty; cbn [andb].
    2:{ exists fs. split_and!; [done|done|done|by left|].
        apply bool_decide_eq_false in Hempty.
        apply is_dir_true. left. by destruct (decide (dirname target = "")). }
    destruct (is_file (dirname target) fs || is_dir (dirname target) fs)
      eqn:Hthere; cbn [negb].
    { exists fs. split_and!; [done|done|done|by left|].
      apply orb_prop in Hthere as [Hfile|?]; [|done].
      by rewrite (Hway _ Hup) in Hfile. }
    apply orb_false_elim in Hthere as [_ Hnodir'].
    unfold makedirs.
    assert (below_file (dirname target) fs = false) as ->.
    { apply not_true_iff_false. intros (q & Hq & Hfile)%below_file_true.
      rewrite Hway in Hfile; [done|]. by eapply under_under. }
    rewrite (Hway _ Hup), Hnodir'. cbn [orb].
    eexists. split_and!; [done|done|set_solver| |].
    - cbn [dirs]. intros d [Hd|Hd]%elem_of_union; [right|by left].
      apply elem_of_list_to_set, list_elem_of_filter in Hd as [_ Hd].
      apply elem_of_app in Hd as [Hd%elem_of_ancestors|Hd%list_elem_of_singleton].
      + by eapply under_under.
      + by subst d.
    - apply is_dir_true. right; left. cbn [dirs].
      apply elem_of_union_l, elem_of_list_to_set, list_elem_of_filter.
      split; [done|]. apply elem_of_app. right. apply list_elem_of_here. }
  (* the target itself is free *)
  assert (is_dir target fs0 = false) as Hfree.
  { apply is_dir_false. split_and!.
    - apply path_join_nonempty.
    - intros [Hd|Hd]%Hnew0; [|by apply under_irrefl in Hd].
      destruct (Hdirs _ Htarget Hd) as (n' & Hn' & Hu). by apply (Hbelow n').
    - rewrite Hfiles0. intros p c Hp Hu.
      destruct (Hfiles p (under_under _ _ _ Htarget Hu) (mk_is_Some _ _ Hp))
        as (n' & Hn' & ->).
      by apply (Hbelow n'). }
  eexists. split.
  - unfold extract_member. rewrite Hsan.
    rewrite (bool_decide_eq_false_2 (n = "")).
    2:{ by apply bool_decide_eq_true in Hne. }
    fold target.
    unfold mbind at 1, io_bind at 1, path_exists at 1.
    unfold mbind at 1, io_bind at 1. rewrite Hmk.
    rewrite Hnodir.
    unfold mbind at 1, io_bind at 1, open_write at 1.
    rewrite Hfree, Hupper. unfold write_file. cbn [files dirs].
    by rewrite insert_insert_eq.
  - split_and!.
    + eapply is_dir_mono; [| |done]; cbn [files dirs]; [done|].
      rewrite Hfiles0. intros p Hp. apply lookup_insert_is_Some'. by right.
    + apply bool_decide_eq_false. cbn [files]. rewrite Hfiles0.
      rewrite lookup_insert_ne by apply path_join_ne.
      by apply bool_decide_eq_false in Hnofile.
    + cbn [files]. rewrite Hfiles0. intros p Hp.
      intros [<-|[_ Hold]]%lookup_insert_is_Some; [by exists n|].
      by apply Hfiles.
    + cbn [dirs]. intros d Hd [Hold|Hnew]%Hnew0; [by apply Hdirs|].
      by exists n.
Qed.

Lemma extract_names_fresh (info : string → content) names fs :
  (∀ n, n ∈ names → n ∈ all) → extracted_only dir all fs →
  ∃ fs',
    io_for_each (λ name, extract_member dir name (info name)) names fs =
      (Ok (), fs') ∧
    extracted_only dir all fs'.
Proof.
  revert fs. induction names as [|n names IH]; intros fs Hsub Hinv.
  - by exists fs.
  - destruct (extract_member_fresh n (info n) fs) as (fs1 & H1 & Hinv1);
      [apply Hsub, list_elem_of_here|done|].
    destruct (IH fs1) as (fs' & Hrest & Hinv');
      [intros n' Hn'; by apply Hsub, list_elem_of_further|done|].
    exists fs'. split; [|done].
    cbn [io_for_each]. by rewrite (io_bind_ok _ _ _ _ _ H1).
Qed.
End fresh.

Section package_paths.
Implicit Types (fs : filesystem) (members : list (string * content)).

(** An archive of files with plain names extracts into a staging directory
    with nothing in it. *)
Lemma extractall_fresh members fs :
  plain_members members →
  is_dir temp_aivis_extract fs = true →
  is_file temp_aivis_extract fs = false →
  (∀ p, under temp_aivis_extract p → files fs !! p = None ∧ p ∉ dirs fs) →
  ∃ fs',
    extractall temp_aivis_extract members fs = (Ok (), fs') ∧
    extracted_only temp_aivis_extract (dict_keys members) fs'.
Proof.
  intros [Hplain Hnest] Hdir Hnofile Hfresh.
  rewrite Forall_forall in Hplain.
  apply extract_names_fresh; [done| | |done|].
  - intros n ([n' c] & -> & Hm)%list_elem_of_fmap. by apply (Hplain _ Hm).
  - intros n n' (m & -> & Hm)%list_elem_of_fmap (m' & -> & Hm')%list_elem_of_fmap.
    by apply Hnest.
  - split_and!; [done|done| |].
    + intros p Hp [c Hc]. destruct (Hfresh p Hp). congruence.
    + intros d Hd Hin. by destruct (Hfresh d Hd).
Qed.

(** A tagged document saves when its staging directory is there, its
    [config.json] is not a directory, its configuration can be written and
    the output can be opened. *)
Lemma save_aivis_model_ok (d : list (string * json)) config output_path fs :
  dict_get "type" d = Some (JStr "aivis") →
  dict_get "temp_dir" d = Some (JStr temp_aivis_extract) →
  dict_get "config" d = Some config →
  encodable config = true →
  is_dir temp_aivis_extract fs = true →
  is_dir (path_join temp_aivis_extract "config.json") fs = false →
  is_dir output_path
    (Filesystem
       (<[path_join temp_aivis_extract "config.json" := JsonText config]>
          (files fs))
       (dirs fs)) = false →
  is_dir (dirname output_path)
    (Filesystem
       (<[path_join temp_aivis_extract "config.json" := JsonText config]>
          (files fs))
       (dirs fs)) = true →
  ∃ fs', save_model (JObj d) output_path fs = (Ok (), fs').
Proof.
  intros Htype Htemp Hconfig Henc Hdir Hcfg Hout Hparent.
  unfold save_model, lift. unfold mbind at 1, io_bind at 1.
  rewrite is_aivis_obj, Htype. cbn [json_is_str].
  rewrite bool_decide_eq_true_2 by done.
  unfold _save_aivis_model, lift. unfold mbind at 1, io_bind at 1.
  cbn [py_getitem]. rewrite Htemp, Hconfig. cbn [mbind result_bind as_path].
  rewrite Path_staging, joinpath_staging.
  unfold mbind at 1, io_bind at 1, open_write at 1.
  rewrite Hcfg, dirname_path_join, Hdir by done.
  unfold mbind at 1, io_bind at 1.
  unfold mbind at 1, io_bind at 1, json_dump at 1. rewrite Henc.
  cbn [files dirs]. rewrite insert_insert_eq.
  unfold mbind at 1, io_bind at 1, open_write at 1.
  rewrite Hout, Hparent. cbn. eauto.
Qed.
End package_paths.

Lemma add_styles_to_model_tagged (d : list (string * json)) config config' :
  dict_get "type" d = Some (JStr "aivis") →
  dict_get "config" d = Some config →
  merge_config config = Ok config' →
  add_styles_to_model (JObj d) = Ok (JObj (dict_set "config" config' d)).
Proof.
  intros Htype Hconfig Hm. unfold add_styles_to_model, config_of.
  rewrite is_aivis_obj, Htype. cbn [json_is_str mbind result_bind].
  rewrite bool_decide_eq_true_2 by done. cbn [mbind result_bind py_getitem].
  rewrite Hconfig. cbn [mbind result_bind]. by rewrite Hm.
Qed.



(** ** Documents that only look packaged, and plain failures *)

(** X7.  The directory a save empties is whatever the document names.
    When a plain JSON file holds an object tagged ["aivis"] with a
    ["temp_dir"], and [process_file] succeeds on it, no file is left below
    the directory named there, as [Path] reads the name: [photos/] is
    [photos], and the empty string is the working directory.  Unless it is
    the working directory or a root, the directory itself is gone too. *)
Theorem tagged_json_consumes_directory input_file output_file d victim
    fs fs' :
  (∃ stem, input_file = stem +:+ ".json") →
  files fs !! input_file = Some (JsonText (JObj d)) →
  dict_get "type" d = Some (JStr "aivis") →
  dict_get "temp_dir" d = Some (JStr victim) →
  process_file input_file output_file fs = (Ok (), fs') →
  (∀ p, is_Some (relative_to (Path victim) p) → files fs' !! p = None) ∧
  (Path victim ≠ "." → endswith (Path victim) "/" = false →
   is_dir (Path victim) fs' = false).
Proof.
  intros Hjson Hfile Htype Hvictim. unfold process_file.
  rewrite (io_bind_ok _ _ _ _ _ (load_model_json _ _ _ Hjson Hfile)).
  unfold lift at 1. unfold mbind at 1, io_bind at 1.
  destruct (add_styles_to_model (JObj d)) as [model_data'|] eqn:Hadd; [|done].
  destruct (add_styles_to_model_tagged_inv _ _ Htype Hadd)
    as (config & config' & Hcfg & Hm & ->).
  intros Hsave.
  assert (is_aivis (JObj (dict_set "config" config' d)) = Ok true) as Htag.
  { by rewrite is_aivis_obj, dict_get_set_ne, Htype. }
  destruct (save_aivis_model_run _ _ _ _ Htag Hsave)
    as (s & config'' & fs3 & Htemp & _ & _ & _ & _ & ->).
  simpl in Htemp. rewrite dict_get_set_ne, Hvictim in Htemp by done.
  injection Htemp as <-. split.
  - intros p [name Hp]. by rewrite rmtree_lookup, Hp.
  - intros _ _. apply is_dir_rmtree, Path_nonempty.
Qed.

Lemma tagged_json_consumes_directory_witness :
  let fs :=
    Filesystem
      {[ "job.json" :=
           JsonText (JObj [ ("type", JStr "aivis"); ("config", JObj []);
                            ("temp_dir", JStr "photos/") ]);
         "photos/summer.jpg" := Blob "pixels" ]}
      {["out"]} in
  let run := process_file "job.json" "out/job_styled.json" fs in
  run.1 = Ok () ∧ files run.2 !! "photos/summer.jpg" = None.
Proof.
  intros fs run.
  assert (run = (Ok (), run.2)) as Hrun by (by vm_compute).
  split; [by rewrite Hrun|].
  destruct (tagged_json_consumes_directory "job.json" "out/job_styled.json"
              [ ("type", JStr "aivis"); ("config", JObj []);
                ("temp_dir", JStr "photos/") ]
              "photos/" fs run.2) as [Hgone _].
  - by exists "job".
  - reflexivity.
  - reflexivity.
  - reflexivity.
  - exact Hrun.
  - apply Hgone. exists "summer.jpg". by vm_compute.
Defined.

(** The exceptions of [add_styles_to_model]. *)
Lemma add_styles_to_model_raise model_data e :
  add_styles_to_model model_data = Raise e →
  e = AttributeError ∨ e = KeyError "config" ∨ e = TypeError.
Proof.
  destruct model_data as [| | | | | |d];
    try (intros [= <-]; by left).
  unfold add_styles_to_model, config_of. rewrite is_aivis_obj.
  cbn [mbind result_bind].
  assert (∀ config (k : json → result json),
            (∀ c, ∃ r, k c = Ok r) →
            (config' ← merge_config config; k config') = Raise e →
            e = TypeError) as Hmerge.
  { intros config k Hk. pose proof (merge_config_outcome config) as Hm.
    destruct (mergeable config).
    - destruct Hm as [config' ->]. cbn [mbind result_bind].
      destruct (Hk config') as [r ->]. done.
    - rewrite Hm. by intros [= <-]. }
  destruct (match dict_get "type" d with
            | Some v => json_is_str "aivis" v
            | None => false
            end).
  - cbn [py_getitem]. destruct (dict_get "config" d) as [config|].
    + cbn [mbind result_bind]. intros He. right; right.
      apply (Hmerge config (λ config', py_setitem "config" config' (JObj d)));
        [|done].
      intros c. simpl. eauto.
    + intros [= <-]. right; by left.
  - cbn [mbind result_bind]. intros He. right; right.
    apply (Hmerge (JObj d) (λ config', Ok config')); [|done].
    intros c. eauto.
Qed.

(** X8.  On a path ending in [.json] whose content is not an object tagged
    ["aivis"], a [process_file] that raises has changed nothing, with one
    exception: when the merged document holds a lone surrogate, the output
    file has been created and holds the beginning of its text, the
    exception being [UnicodeEncodeError]; nothing else has changed then
    either. *)
Theorem plain_failure_touches_only_output input_file output_file fs e fs' :
  (∃ stem, input_file = stem +:+ ".json") →
  (∀ j, files fs !! input_file = Some (JsonText j) → is_aivis j ≠ Ok true) →
  process_file input_file output_file fs = (Raise e, fs') →
  fs' = fs ∨
  (e = UnicodeEncodeError ∧
   ∃ j j',
     files fs !! input_file = Some (JsonText j) ∧
     add_styles_to_model j = Ok j' ∧
     encodable j' = false ∧
     fs' = Filesystem (<[output_file := Truncated j']> (files fs)) (dirs fs)).
Proof.
  intros Hjson%endswith_spec Hplain. unfold process_file.
  unfold mbind at 1, io_bind at 1. unfold load_model.
  rewrite (endswith_json_not_aivis _ Hjson), Hjson.
  unfold mbind at 1, io_bind at 1, open_read.
  destruct (files fs !! input_file) as [text|] eqn:Hfile;
    [|intros [= _ <-]; by left].
  unfold lift at 1.
  destruct text as [j| | |]; cbn [json_load];
    [|intros [= _ <-]; by left..].
  specialize (Hplain j eq_refl).
  unfold mbind at 1, io_bind at 1, lift at 1.
  destruct (add_styles_to_model j) as [model_data'|e0] eqn:Hadd;
    [|intros [= _ <-]; by left].
  destruct (add_styles_to_model_inv _ _ Hadd)
    as (config & _ & Hcfg & _ & _ & Htag).
  unfold save_model. unfold mbind at 1, io_bind at 1, lift at 1.
  rewrite Htag. unfold config_of in Hcfg.
  destruct (is_aivis j) as [[]|]; [done| |done]. clear Hcfg.
  unfold mbind, io_bind, open_write, json_dump.
  destruct (is_dir output_file fs); [intros [= _ <-]; by left|].
  destruct (is_dir (dirname output_file) fs); [|intros [= _ <-]; by left].
  cbn [files dirs]. destruct (encodable model_data') eqn:Henc; [done|].
  intros [= <- <-]. right. split; [done|].
  exists j, model_data'. by rewrite insert_insert_eq.
Qed.

Lemma plain_failure_touches_only_output_witness :
  let fs :=
    Filesystem {["lone.json" := JsonText (JObj [("name", JStr lone_surrogate)])]}
               {["out"]} in
  let run := process_file "lone.json" "out/lone_styled.json" fs in
  run.1 = Raise UnicodeEncodeError ∧
  files run.2 !! "lone.json" =
    Some (JsonText (JObj [("name", JStr lone_surrogate)])) ∧
  is_Some (files run.2 !! "out/lone_styled.json").
Proof.
  intros fs run.
  assert (run = (Raise UnicodeEncodeError, run.2)) as Hrun by (by vm_compute).
  split; [by rewrite Hrun|].
  destruct (plain_failure_touches_only_output
              "lone.json" "out/lone_styled.json" fs UnicodeEncodeError run.2)
    as [Hsame|(_ & j & j' & _ & _ & _ & Hfs')].
  - by exists "lone".
  - intros j Hj. simpl in Hj. rewrite lookup_singleton_eq in Hj.
    by injection Hj as <-.
  - exact Hrun.
  - exfalso. apply (f_equal (λ x, is_file "out/lone_styled.json" x)) in Hsame.
    vm_compute in Hsame. discriminate.
  - rewrite Hfs'. cbn [files]. split.
    + rewrite lookup_insert_ne by discriminate. by vm_compute.
    + rewrite lookup_insert_eq. by eexists.
Defined.

(** ** The batch *)

Section batch.
Implicit Types (input_files : list string) (st : progress) (fs : filesystem).

(** The counters after the loop: every file is counted once, each error
    has its dialog, and the status updates number the files in order. *)
Lemma process_loop_tally output_dir total i input_files st fs :
  let r := process_loop output_dir total i input_files st fs in
  success_count r.1 + error_count r.1 =
    success_count st + error_count st + length input_files ∧
  length (List.filter is_showerror (scheduled r.1)) + error_count st =
    length (List.filter is_showerror (scheduled st)) + error_count r.1 ∧
  omap status_position (scheduled r.1) =
    omap status_position (scheduled st) ++
    ((λ k, (k + 1, total)) <$> seq i (length input_files)).
Proof.
  revert i st fs.
  induction input_files as [|input_file rest IH]; intros i st fs.
  - simpl. split_and!; [lia|lia|by rewrite app_nil_r].
  - cbn [process_loop].
    destruct (process_file input_file _ fs) as [[[]|e] fs1].
    + destruct (IH (S i)
                  (Progress (success_count st + 1) (error_count st)
                            (scheduled st ++ [update_status (i + 1) total]))
                  fs1) as (Hsum & Herr & Hstatus).
      cbn [success_count error_count scheduled] in *.
      split_and!.
      * simpl. lia.
      * rewrite List.filter_app in Herr. simpl in Herr.
        rewrite app_nil_r in Herr. lia.
      * rewrite Hstatus, omap_app. simpl. by rewrite <- app_assoc.
    + destruct (IH (S i)
                  (Progress (success_count st) (error_count st + 1)
                            (scheduled st ++
                             [update_status (i + 1) total;
                              showerror (basename input_file) e]))
                  fs1) as (Hsum & Herr & Hstatus).
      cbn [success_count error_count scheduled] in *.
      split_and!.
      * simpl. lia.
      * rewrite List.filter_app, length_app in Herr. simpl in Herr. lia.
      * rewrite Hstatus, omap_app. simpl. by rewrite <- app_assoc.
Qed.


(** The files a run of the loop leaves, and the counts it adds, do not
    depend on where the counters and the numbering start. *)
Lemma process_loop_shift output_dir total total' i i' input_files st st' fs :
  let r := process_loop output_dir total i input_files st fs in
  let r' := process_loop output_dir total' i' input_files st' fs in
  r.2 = r'.2 ∧
  success_count r.1 + success_count st' = success_count r'.1 + success_count st ∧
  error_count r.1 + error_count st' = error_count r'.1 + error_count st.
Proof.
  revert i i' st st' fs.
  induction input_files as [|input_file rest IH]; intros i i' st st' fs.
  - simpl. split_and!; [done|lia|lia].
  - cbn [process_loop].
    destruct (process_file input_file _ fs) as [[[]|e] fs1].
    + destruct (IH (S i) (S i')
                  (Progress (success_count st + 1) (error_count st)
                            (scheduled st ++ [update_status (i + 1) total]))
                  (Progress (success_count st' + 1) (error_count st')
                            (scheduled st' ++ [update_status (i' + 1) total']))
                  fs1) as (Hfs & Hs & He).
      cbn [success_count error_count] in *. split_and!; [done|lia|lia].
    + destruct (IH (S i) (S i')
                  (Progress (success_count st) (error_count st + 1)
                            (scheduled st ++
                             [update_status (i + 1) total;
                              showerror (basename input_file) e]))
                  (Progress (success_count st') (error_count st' + 1)
                            (scheduled st' ++
                             [update_status (i' + 1) total';
                              showerror (basename input_file) e]))
                  fs1) as (Hfs & Hs & He).
      cbn [success_count error_count] in *. split_and!; [done|lia|lia].
Qed.

Lemma process_loop_app output_dir total i files1 files2 st fs :
  process_loop output_dir total i (files1 ++ files2) st fs =
  process_loop output_dir total (i + length files1) files2
    (process_loop output_dir total i files1 st fs).1
    (process_loop output_dir total i files1 st fs).2.
Proof.
  revert i st fs. induction files1 as [|input_file rest IH]; intros i st fs.
  - simpl. by rewrite Nat.add_0_r.
  - cbn [app process_loop length].
    destruct (process_file input_file _ fs) as [[[]|e] fs1];
      rewrite IH;
      by replace (S i + length rest) with (i + S (length rest)) by lia.
Qed.

(** X10.  Batches compose.  Processing the files of one list and then
    those of another, the second batch starting on the files the first
    left, ends with the same file system as one batch over the two lists
    joined, and the counters of the joined batch are the sums. *)
Theorem process_files_app files1 files2 output_dir fs :
  ∃ calls1 s1 e1 fs1 calls2 s2 e2 fs2 calls,
    process_files files1 output_dir fs =
      (calls1 ++ [process_complete s1 e1], fs1) ∧
    process_files files2 output_dir fs1 =
      (calls2 ++ [process_complete s2 e2], fs2) ∧
    process_files (files1 ++ files2) output_dir fs =
      (calls ++ [process_complete (s1 + s2) (e1 + e2)], fs2).
Proof.
  unfold process_files.
  rewrite process_loop_app.
  set (n1 := length files1). set (n2 := length files2).
  set (n := length (files1 ++ files2)).
  pose proof (process_loop_shift output_dir n1 n 0 0 files1
                (Progress 0 0 []) (Progress 0 0 []) fs) as (Hfs1 & Hs1 & He1).
  destruct (process_loop output_dir n1 0 files1 _ fs) as [st1 fs1] eqn:H1.
  destruct (process_loop output_dir n 0 files1 _ fs) as [st1' fs1'] eqn:H1'.
  cbn [fst snd success_count error_count] in *. subst fs1'.
  pose proof (process_loop_shift output_dir n2 n 0 (0 + n1) files2
                (Progress 0 0 []) st1' fs1) as (Hfs2 & Hs2 & He2).
  destruct (process_loop output_dir n2 0 files2 _ fs1) as [st2 fs2] eqn:H2.
  destruct (process_loop output_dir n (0 + n1) files2 st1' fs1)
    as [st fs'] eqn:H.
  cbn [fst snd success_count error_count] in *. subst fs'.
  exists (scheduled st1), (success_count st1), (error_count st1), fs1,
    (scheduled st2), (success_count st2), (error_count st2), fs2,
    (scheduled st).
  split_and!; [done|by rewrite H2|].
  replace (success_count st1 + success_count st2) with (success_count st)
    by lia.
  by replace (error_count st1 + error_count st2) with (error_count st) by lia.
Qed.
End batch.

(** ** The name of the output file *)

Section output_name.
Implicit Types (s stem ext dir : string).

Lemma has_slash_append a b : has_slash (a +:+ b) = has_slash a || has_slash b.
Proof.
  induction a as [|c a IH]; [done|].
  change (has_slash (String c (a +:+ b)) =
          has_slash (String c a) || has_slash b).
  simpl. by rewrite IH, orb_assoc.
Qed.

Lemma basename_no_slash s : has_slash s = false → basename s = s.
Proof.
  destruct s as [|c s]; [done|]. simpl.
  intros [Hc ->]%orb_false_iff. by rewrite Hc.
Qed.

Lemma basename_path_join dir s :
  has_slash s = false → basename (dir +:+ "/" +:+ s) = s.
Proof.
  intros Hs. induction dir as [|c dir IH].
  - change (basename (String "/" s) = s). simpl. by rewrite Hs.
  - change (basename (String c (dir +:+ "/" +:+ s)) = s).
    simpl. by rewrite has_slash_app.
Qed.

Lemma dirpart_no_slash s : has_slash s = false → dirpart s = "".
Proof.
  destruct s as [|c s]; [done|]. simpl.
  intros [Hc ->]%orb_false_iff. by rewrite Hc.
Qed.

Lemma split_last_dot_no_dot s : has_dot s = false → split_last_dot s = None.
Proof.
  induction s as [|c s IH]; [done|]. simpl.
  intros [Hc Hs]%orb_false_iff. by rewrite IH, Hc.
Qed.

Lemma split_last_dot_ext stem ext :
  has_dot ext = false →
  split_last_dot (stem +:+ "." +:+ ext) = Some (stem, "." +:+ ext).
Proof.
  intros Hext. induction stem as [|c stem IH].
  - change (split_last_dot (String "." ext) = Some ("", String "." ext)).
    simpl. by rewrite split_last_dot_no_dot.
  - change (split_last_dot (String c (stem +:+ "." +:+ ext)) =
            Some (String c stem, "." +:+ ext)).
    simpl. by rewrite IH.
Qed.

Lemma split_last_dot_leading dots rest :
  all_dots dots = true → has_dot rest = false →
  match split_last_dot (dots +:+ rest) with
  | Some (name, _) => all_dots name = true
  | None => True
  end.
Proof.
  intros Hdots Hrest. induction dots as [|c dots IH].
  - change (match split_last_dot rest with
            | Some (name, _) => all_dots name = true
            | None => True
            end).
    by rewrite split_last_dot_no_dot.
  - simpl in Hdots. apply andb_prop in Hdots as [Hc Hdots].
    specialize (IH Hdots).
    change (match split_last_dot (String c (dots +:+ rest)) with
            | Some (name, _) => all_dots name = true
            | None => True
            end).
    simpl. destruct (split_last_dot (dots +:+ rest)) as [[name ext]|].
    + simpl. by rewrite Hc, IH.
    + by rewrite Hc.
Qed.

Lemma all_dots_no_slash s : all_dots s = true → has_slash s = false.
Proof.
  induction s as [|c s IH]; [done|]. simpl.
  intros [Hc Hs]%andb_prop. rewrite IH by done.
  apply bool_decide_eq_true in Hc as ->. done.
Qed.

Lemma prefix_slash_no_slash s :
  has_slash s = false → String.prefix "/" s = false.
Proof.
  destruct s as [|c s]; [done|]. cbn [has_slash].
  intros [Hc _]%orb_false_iff. apply bool_decide_eq_false in Hc.
  change (String.prefix "/" (String c s))
    with (match Ascii.ascii_dec "/" c with
          | left _ => String.prefix "" s
          | right _ => false
          end).
  destruct (Ascii.ascii_dec "/" c) as [<-|]; done.
Qed.

Lemma os_path_join_plain output_dir s :
  output_dir ≠ "" → endswith output_dir "/" = false → has_slash s = false →
  os_path_join output_dir s = output_dir +:+ "/" +:+ s.
Proof.
  intros Hne Hend Hs. unfold os_path_join.
  by rewrite prefix_slash_no_slash, Hend, bool_decide_eq_false_2.
Qed.

(** X11.  The output of [dir/stem.ext] is [output_dir/stem_styled.ext]:
    the marker goes before the extension, so the output ends in the
    extension of the input and [load_model] takes it the way it took the
    input. *)
Theorem output_file_of_keeps_extension output_dir dir stem ext :
  has_slash stem = false → all_dots stem = false →
  has_slash ext = false → has_dot ext = false →
  output_dir ≠ "" → endswith output_dir "/" = false →
  output_file_of output_dir (dir +:+ "/" +:+ stem +:+ "." +:+ ext) =
    output_dir +:+ "/" +:+ stem +:+ "_styled." +:+ ext ∧
  endswith (output_file_of output_dir (dir +:+ "/" +:+ stem +:+ "." +:+ ext))
           ("." +:+ ext) = true.
Proof.
  intros Hstem Hdots Hext Hdot Hne Hend.
  assert (has_slash (stem +:+ "." +:+ ext) = false) as Hbase.
  { rewrite has_slash_append, Hstem.
    change (has_slash (String "." ext) = false). simpl. by rewrite Hext. }
  assert (output_file_of output_dir (dir +:+ "/" +:+ stem +:+ "." +:+ ext) =
          output_dir +:+ "/" +:+ stem +:+ "_styled." +:+ ext) as Hname.
  { unfold output_file_of. rewrite basename_path_join by done.
    unfold splitext. rewrite basename_no_slash by done.
    rewrite split_last_dot_ext, Hdots, dirpart_no_slash by done.
    cbn [fst snd]. change ("" +:+ stem) with stem.
    rewrite os_path_join_plain; [done|done|done|].
    rewrite has_slash_append, Hstem.
    change (has_slash (String "_" (String "s" (String "t" (String "y"
              (String "l" (String "e" (String "d" (String "." ext))))))))
            = false).
    simpl. by rewrite Hext. }
  split; [done|]. rewrite Hname. apply endswith_spec.
  exists (output_dir +:+ "/" +:+ stem +:+ "_styled").
  by rewrite !string_app_assoc.
Qed.

Lemma output_file_of_keeps_extension_witness :
  output_file_of "out" ("models" +:+ "/" +:+ "voice.v2" +:+ "." +:+ "aivis") =
  "out/voice.v2_styled.aivis".
Proof.
  eapply proj1, (output_file_of_keeps_extension "out" "models" "voice.v2" "aivis");
    by vm_compute.
Defined.

Lemma endswith_styled s :
  endswith (s +:+ "_styled") ".json" = false ∧
  endswith (s +:+ "_styled") ".aivis" = false.
Proof.
  induction s as [|c s [IH1 IH2]]; [done|].
  change (endswith (String c (s +:+ "_styled")) ".json" = false ∧
          endswith (String c (s +:+ "_styled")) ".aivis" = false).
  cbn [endswith]. rewrite IH1, IH2, !orb_false_r.
  split; apply bool_decide_eq_false; intros [= _ Hs].
  - by destruct s as [|? [|? [|? [|? [|? ?]]]]].
  - by destruct s as [|? [|? [|? [|? [|? [|? ?]]]]]].
Qed.

(** X12.  A base name whose only dots are leading ones has no extension
    for [splitext], so the marker goes at the very end: a file called
    [.json] is written to [.json_styled].  Such an output ends neither in
    [.json] nor in [.aivis]. *)
Theorem output_file_of_without_extension output_dir dir dots rest :
  all_dots dots = true →
  has_dot rest = false → has_slash rest = false →
  output_dir ≠ "" → endswith output_dir "/" = false →
  output_file_of output_dir (dir +:+ "/" +:+ dots +:+ rest) =
    output_dir +:+ "/" +:+ (dots +:+ rest) +:+ "_styled" ∧
  endswith (output_file_of output_dir (dir +:+ "/" +:+ dots +:+ rest))
           ".json" = false ∧
  endswith (output_file_of output_dir (dir +:+ "/" +:+ dots +:+ rest))
           ".aivis" = false.
Proof.
  intros Hdots Hdot Hslash Hne Hend.
  assert (has_slash (dots +:+ rest) = false) as Hbase.
  { by rewrite has_slash_append, all_dots_no_slash, Hslash. }
  assert (output_file_of output_dir (dir +:+ "/" +:+ dots +:+ rest) =
          (output_dir +:+ "/" +:+ dots +:+ rest) +:+ "_styled") as Hname.
  { unfold output_file_of. rewrite basename_path_join by done.
    assert (splitext (dots +:+ rest) = (dots +:+ rest, "")) as ->.
    { unfold splitext. rewrite basename_no_slash by done.
      pose proof (split_last_dot_leading dots rest Hdots Hdot) as Hsplit.
      destruct (split_last_dot (dots +:+ rest)) as [[name ext]|]; [|done].
      by rewrite Hsplit. }
    cbn [fst snd]. rewrite os_path_join_plain; [|done|done|].
    - by rewrite !string_app_assoc.
    - by rewrite has_slash_append, Hbase. }
  rewrite Hname. split_and!; [|apply endswith_styled..].
  by rewrite !string_app_assoc.
Qed.

Lemma output_file_of_without_extension_witness :
  output_file_of "out" ("models" +:+ "/" +:+ "." +:+ "json") =
  "out/.json_styled".
Proof.
  eapply proj1, (output_file_of_without_extension "out" "models" "." "json");
    by vm_compute.
Defined.
End output_name.

(** ** What is left behind, and what leaks into the next package *)

(** X13.  Files left in the staging directory end up in the next output.
    When a package is processed while the staging directory still holds a
    file under a name the archive does not have, and the run succeeds with
    an output outside the staging directory, the output archive has that
    file among its members. *)
Theorem stale_files_enter_output input_file output_file members config
    stale c fs fs' :
  (∃ stem, input_file = stem +:+ ".aivis") →
  files fs !! input_file = Some (ZipArchive members) →
  archive_map members !! "config.json" = Some (JsonText config) →
  is_file temp_aivis_extract fs = false →
  files fs !! path_join temp_aivis_extract stale = Some c →
  archive_map members !! stale = None →
  ¬ under temp_aivis_extract output_file →
  process_file input_file output_file fs = (Ok (), fs') →
  ∃ out_members,
    files fs' !! output_file = Some (ZipArchive out_members) ∧
    (stale, c) ∈ out_members.
Proof.
  intros Haivis%endswith_spec Hzip Hconfig Htemp Hstale Habsent Hout_side.
  unfold process_file, load_model. rewrite Haivis.
  unfold mbind at 1, io_bind at 1.
  destruct (_load_aivis_model input_file fs) as [[model_data|] fs1] eqn:Hload;
    [|done].
  apply load_aivis_model_inv in Hload
    as (members' & config0 & fs0 & Hmk & Hzip' & Hextract & _ & ->).
  assert (members' = members) as -> by congruence.
  destruct (mkdir_exist_ok_inv _ _ _ Hmk) as (Hdir0 & Hfiles0 & _).
  destruct (extractall_inv temp_aivis_extract _ _ _ eq_refl Hdir0 Hextract)
    as (Hmembers & _).
  unfold lift at 1. unfold mbind at 1, io_bind at 1.
  set (d := [ ("type", JStr "aivis"); ("config", config0);
              ("temp_dir", JStr "temp_aivis_extract") ]).
  destruct (add_styles_to_model (JObj d)) as [model_data'|] eqn:Hadd; [|done].
  destruct (add_styles_to_model_tagged_inv d _ eq_refl Hadd)
    as (config1 & config' & Hc & Hm & ->).
  intros Hsave.
  assert (is_aivis (JObj (dict_set "config" config' d)) = Ok true) as Htag
    by reflexivity.
  destruct (save_aivis_model_run (JObj (dict_set "config" config' d))
              output_file _ fs' Htag Hsave)
    as (s & config'' & fs3 & Ht & _ & _ & Hfs3 & _ & ->).
  assert (s = "temp_aivis_extract") as ->.
  { vm_compute in Ht. by injection Ht as <-. }
  change (Path "temp_aivis_extract") with (Path temp_aivis_extract) in *.
  rewrite Path_staging, joinpath_staging in *.
  exists (staged_files temp_aivis_extract fs3). split.
  - rewrite rmtree_lookup, relative_to_staging.
    destruct (strip_prefix _ output_file) eqn:Hs.
    { destruct Hout_side. by eexists. }
    cbn [files]. apply lookup_insert_eq.
  - apply elem_of_staged_files.
    exists (path_join temp_aivis_extract stale). split.
    + rewrite Hfs3. rewrite lookup_insert_ne.
      2:{ intros ->. apply Hout_side, under_path_join_self. }
      rewrite lookup_insert_ne.
      2:{ intros Heq%path_join_inj. congruence. }
      by rewrite Hmembers, Habsent, Hfiles0.
    + rewrite relative_to_staging. apply strip_prefix_spec.
      unfold path_join. by rewrite string_app_assoc.
Qed.

Lemma stale_files_enter_output_witness :
  let fs :=
    Filesystem
      {[ "second.aivis" := ZipArchive [("config.json", JsonText (JObj []))];
         "temp_aivis_extract/first.bin" := Blob "first weights" ]}
      {["out"]} in
  let run := process_file "second.aivis" "out/second_styled.aivis" fs in
  run.1 = Ok () ∧
  ∃ out_members,
    files run.2 !! "out/second_styled.aivis" = Some (ZipArchive out_members) ∧
    ("first.bin", Blob "first weights") ∈ out_members.
Proof.
  intros fs run.
  assert (run = (Ok (), run.2)) as Hrun by (by vm_compute).
  split; [by rewrite Hrun|].
  apply (stale_files_enter_output "second.aivis" "out/second_styled.aivis"
           [("config.json", JsonText (JObj []))] (JObj [])
           "first.bin" (Blob "first weights") fs run.2).
  - by exists "second".
  - reflexivity.
  - by vm_compute.
  - by vm_compute.
  - by vm_compute.
  - by vm_compute.
  - apply (bool_decide_unpack _). by vm_compute.
  - exact Hrun.
Defined.

(** X14.  A package that loads but does not merge leaves its staging
    directory behind.  When [load_model] has succeeded on a path ending in
    [.aivis] and [add_styles_to_model] raises on the document it returned,
    the exception is the [TypeError] of a configuration that is not
    mergeable, [process_file] raises it, and the staging directory with the
    [config.json] that was read is still on disk: nothing between load and
    save cleans up. *)
Theorem unmergeable_package_leaves_staging input_file output_file
    model_data e fs fs1 :
  (∃ stem, input_file = stem +:+ ".aivis") →
  load_model input_file fs = (Ok model_data, fs1) →
  add_styles_to_model model_data = Raise e →
  e = TypeError ∧
  process_file input_file output_file fs = (Raise TypeError, fs1) ∧
  is_dir temp_aivis_extract fs1 = true ∧
  ∃ config,
    mergeable config = false ∧
    files fs1 !! path_join temp_aivis_extract "config.json" =
      Some (JsonText config).
Proof.
  intros Haivis%endswith_spec Hload Hadd.
  pose proof Hload as Hload'. unfold load_model in Hload'.
  rewrite Haivis in Hload'.
  apply load_aivis_model_inv in Hload'
    as (members & config & fs0 & Hmk & Hzip & Hextract & Hconfig & ->).
  destruct (mkdir_exist_ok_inv _ _ _ Hmk) as (Hdir0 & _).
  destruct (extractall_inv temp_aivis_extract _ _ _ eq_refl Hdir0 Hextract)
    as (_ & _ & _ & _ & Hdir1).
  pose proof (merge_config_outcome config) as Hm.
  destruct (mergeable config) eqn:Hmergeable.
  { destruct Hm as [config' Hm].
    rewrite (add_styles_to_model_tagged
               [ ("type", JStr "aivis"); ("config", config);
                 ("temp_dir", JStr "temp_aivis_extract") ]
               config config' eq_refl eq_refl Hm) in Hadd.
    done. }
  assert (e = TypeError) as ->.
  { revert Hadd. unfold add_styles_to_model, config_of.
    cbn [is_aivis py_get mbind result_bind].
    change (dict_get "type" _) with (Some (JStr "aivis")).
    cbn [json_is_str]. rewrite bool_decide_eq_true_2 by done.
    cbn [mbind result_bind py_getitem].
    change (dict_get "config" _) with (Some config).
    cbn [mbind result_bind]. rewrite Hm. by intros [= <-]. }
  split_and!; [done| |done|by exists config].
  unfold process_file. rewrite (io_bind_ok _ _ _ _ _ Hload).
  unfold lift at 1. unfold mbind at 1, io_bind at 1. by rewrite Hadd.
Qed.

Lemma unmergeable_package_leaves_staging_witness :
  let fs :=
    Filesystem
      {["voice.aivis" :=
          ZipArchive [("config.json",
                       JsonText (JObj [("styles", JArr [])]))]]}
      {["out"]} in
  let loaded := load_model "voice.aivis" fs in
  (process_file "voice.aivis" "out/voice_styled.aivis" fs).1 =
    Raise TypeError ∧
  is_dir temp_aivis_extract loaded.2 = true.
Proof.
  intros fs loaded.
  destruct (unmergeable_package_leaves_staging
              "voice.aivis" "out/voice_styled.aivis"
              (JObj [ ("type", JStr "aivis");
                      ("config", JObj [("styles", JArr [])]);
                      ("temp_dir", JStr "temp_aivis_extract") ])
              TypeError fs loaded.2)
    as (_ & Hrun & Hdir & _).
  - by exists "voice".
  - by vm_compute.
  - by vm_compute.
  - split; [by rewrite Hrun|exact Hdir].
Defined.

(** X15.  A successful merge changes [speakers] only when it is a list,
    and then only the entries that are objects without [styles]: every
    other entry, and a [speakers] value of any other kind, comes back as it
    was. *)
Theorem merge_config_speakers_general d d' :
  merge_config (JObj d) = Ok (JObj d') →
  dict_get "speakers" d' =
  (λ speakers, match speakers with
               | JArr entries => JArr (entry_after <$> entries)
               | _ => speakers
               end) <$> dict_get "speakers" d.
Proof.
  intros Hm.
  destruct (merge_config_inv _ _ Hm) as (? & ? & [= <-] & [= <-] & _ & _ & _ & Hsp).
  rewrite add_to_speakers_obj in Hsp.
  rewrite dict_get_set_ne, with_styles_other in Hsp by done.
  destruct (dict_get "speakers" d) as [speakers|] eqn:Hd.
  - apply bind_Ok in Hsp as (entries & Hiter & (entries' & Htr & [= Hd'])%bind_Ok).
    destruct speakers; try discriminate;
      try (injection Hd' as <-;
           by rewrite dict_get_set_ne, with_styles_other, Hd).
    injection Hiter as <-. rewrite traverse_speakers in Htr.
    destruct (forallb speaker_passes items); [|done].
    injection Htr as <-. injection Hd' as <-.
    by rewrite dict_get_set_eq.
  - injection Hsp as <-. by rewrite dict_get_set_ne, with_styles_other, Hd.
Qed.

Lemma merge_config_speakers_general_witness :
  let d := [("speakers", JObj [("styles-of-alice", JObj [("id", JInt 1)])])] in
  let d' := d ++ [("styles", JObj (add_entries styles []))] in
  dict_get "speakers" d' =
  Some (JObj [("styles-of-alice", JObj [("id", JInt 1)])]).
Proof.
  intros d d'.
  rewrite (merge_config_speakers_general d d') by (by vm_compute).
  by vm_compute.
Defined.
